(** * Query-to-section resolution of the constitution chatbot ([app.py])

    A shallow embedding of the resolution pipeline of [app.py]:
    [preprocess_query], [correct_spelling], [match_with_synonyms] and
    [answer_question_nlp], together with the properties of the pipeline
    stated in the specification.

    A Python string is modelled by a [string] holding its UTF-8 encoding,
    on which the substring test [x in s], [" ".join] and [==] are written
    out.  The methods that depend on the Unicode character classes
    ([lower], [split], [repr]) and the two libraries the program calls (the
    spaCy pipeline [nlp] and the [SpellChecker] object [spell]) are taken
    as an interface, [Runtime], over which every definition is parametric.
    The four JSON tables loaded at start-up form a second interface,
    [KnowledgeStore]. *)

From Stdlib Require Import String Ascii List Bool.
From stdpp Require Import base option gmap strings.
Import ListNotations.

Local Open Scope string_scope.

(** ** Exceptions

    A call either returns a value or raises an instance of Python's
    [Exception]; this is what the three [except Exception] handlers of the
    program catch. *)

Inductive exn : Type :=
| TypeError (msg : string)
| LibraryError (msg : string).

Inductive result (A : Type) : Type :=
| Ok (a : A)
| Raise (e : exn).

Arguments Ok {A} a.
Arguments Raise {A} e.

(** Sequencing: an exception raised by [m] skips the rest of the block. *)
#[export] Instance result_bind : MBind result := λ A B k m,
  match m with
  | Ok a => k a
  | Raise e => Raise e
  end.

(** [try: body except Exception as e: handler e] *)
Definition try_except {A : Type} (body : result A) (handler : exn -> result A)
  : result A :=
  match body with
  | Ok a => Ok a
  | Raise e => handler e
  end.

(** Evaluation of a list comprehension whose element expression may raise:
    elements are evaluated left to right and the first exception ends it. *)
Fixpoint comprehension {A B : Type} (f : A -> result B) (xs : list A)
  : result (list B) :=
  match xs with
  | [] => Ok []
  | x :: rest =>
      y ← f x;
      ys ← comprehension f rest;
      Ok (y :: ys)
  end.

Definition raises {A : Type} (m : result A) : Prop :=
  exists e, m = Raise e.

Definition returns {A : Type} (m : result A) : Prop :=
  exists a, m = Ok a.

(** ** String operations of Python that are written out *)

(** [needle in haystack] for two strings. *)
Fixpoint contains (needle haystack : string) : bool :=
  String.prefix needle haystack ||
  match haystack with
  | EmptyString => false
  | String _ rest => contains needle rest
  end.

(** [sep.join(parts)] for a list of strings. *)
Fixpoint join (sep : string) (parts : list string) : string :=
  match parts with
  | [] => ""
  | [p] => p
  | p :: rest => p ++ sep ++ join sep rest
  end.

(** [sep.join(parts)] where an element may be [None]: Python raises
    [TypeError] at the first element that is not a string. *)
Fixpoint join_items (sep : string) (parts : list (option string))
  : result string :=
  match parts with
  | [] => Ok ""
  | None :: _ => Raise (TypeError "sequence item: expected str instance, NoneType found")
  | Some p :: rest =>
      match rest with
      | [] => Ok p
      | _ => tail ← join_items sep rest; Ok (p ++ sep ++ tail)
      end
  end.

(** ** The collaborators of the pipeline *)

(** The attributes of a spaCy token that [preprocess_query] reads. *)
Record Token : Type := {
  lemma_ : string;
  is_stop : bool;
  is_punct : bool;
  is_space : bool;
}.

(** What the program calls and does not define.  [nlp], [spell_unknown]
    and [spell_correction] are library calls and may raise.
    [spell_unknown words] is the set [spell.unknown(words)] of the words the
    dictionary does not know; [spell_correction word] is
    [spell.correction(word)], which is [None] when the checker has no
    candidate for [word]. *)
Class Runtime : Type := {
  str_lower : string -> string;
  str_split : string -> list string;
  str_repr : string -> string;
  nlp : string -> result (list Token);
  spell_unknown : list string -> result (gset string);
  spell_correction : string -> result (option string);
}.

(** The tables loaded by [load_json_file].  [sections] and [synonyms] are
    only looked up; [qa_mapping] and [citizenship_mapping] are iterated, in
    the insertion order of the dict, so they are kept as lists of items. *)
Class KnowledgeStore : Type := {
  sections : gmap string string;
  synonyms : gmap string (list string);
  qa_mapping : list (string * string);
  citizenship_mapping : list (string * string);
}.

(** The dict literal [prioritized_phrases] of [answer_question_nlp], in the
    order of its entries. *)
Definition prioritized_phrases : list (list string * string) :=
  [ (["language"; "culture"], "language culture");
    (["implementation"; "rights"], "implementation right");
    (["authority"; "court"; "bill"; "right"], "authority court bill right") ].

Definition newline : string := String (ascii_of_nat 10) EmptyString.

Definition no_answer_message : string :=
  "Sorry, I couldn't find an answer to your question. "
  ++ "Try asking about specific topics like:" ++ newline
  ++ "- Citizenship requirements" ++ newline
  ++ "- Parliamentary authority" ++ newline
  ++ "- Constitutional amendments".

Definition error_message : string :=
  "Sorry, I encountered an error processing your question.".

Section Pipeline.
Context {rt : Runtime} {ks : KnowledgeStore}.

(** *** [preprocess_query] *)

Definition kept (token : Token) : bool :=
  negb (is_stop token) && negb (is_punct token) && negb (is_space token).

Definition preprocess_body (query : string) : result string :=
  doc ← nlp query;
  let tokens := map (λ token, str_lower (lemma_ token)) (List.filter kept doc) in
  let processed := join " " tokens in
  Ok processed.

Definition preprocess_query (query : string) : result string :=
  try_except (preprocess_body query) (λ e, Ok (str_lower query)).

(** *** [correct_spelling] *)

Definition correct_word (misspelled : gset string) (word : string)
  : result (option string) :=
  if bool_decide (word ∈ misspelled) then spell_correction word
  else Ok (Some word).

(** What [correct_word] makes of a word when it returns a string: the
    candidate of the checker for a word of [misspelled], the word itself
    otherwise. *)
Definition corrected_as (misspelled : gset string) (word out : string) : Prop :=
  if bool_decide (word ∈ misspelled)
  then spell_correction word = Ok (Some out)
  else out = word.

Definition correct_spelling_body (processed_query : string) : result string :=
  let words := str_split processed_query in
  misspelled ← spell_unknown words;
  corrected ← comprehension (correct_word misspelled) words;
  result ← join_items " " corrected;
  Ok result.

Definition correct_spelling (processed_query : string) : result string :=
  try_except (correct_spelling_body processed_query)
             (λ e, Ok processed_query).

(** *** [match_with_synonyms]

    The return value is [Some key], or [None] for Python's [None]. *)

(** [for subtopic, section_key in citizenship_mapping.items(): ...] *)
Fixpoint match_citizenship (items : list (string * string))
    (corrected_query : string) : option string :=
  match items with
  | [] => None
  | (subtopic, section_key) :: rest =>
      if contains (str_lower subtopic) corrected_query then Some section_key
      else match_citizenship rest corrected_query
  end.

Definition search_terms (key : string) : list string :=
  str_lower key :: map str_lower (default [] (synonyms !! key)).

(** [for key in qa_mapping: ... for term in search_terms: ...] *)
Fixpoint match_qa (keys : list string) (corrected_query : string)
  : option string :=
  match keys with
  | [] => None
  | key :: rest =>
      if existsb (λ term, contains term corrected_query) (search_terms key)
      then Some key
      else match_qa rest corrected_query
  end.

(** The part of [match_with_synonyms] that follows the computation of
    [corrected_query]. *)
Definition match_corrected (corrected_query : string) : option string :=
  match match_citizenship citizenship_mapping corrected_query with
  | Some section_key => Some section_key
  | None =>
      if contains "citizenship" corrected_query then Some "citizenship"
      else match_qa (map fst qa_mapping) corrected_query
  end.

Definition match_with_synonyms (query : string) : result (option string) :=
  processed_query ← preprocess_query query;
  corrected_query ← correct_spelling processed_query;
  Ok (match_corrected corrected_query).

(** *** [answer_question_nlp] *)

Definition satisfied (terms : list string) (query_lower : string) : bool :=
  forallb (λ term, contains term query_lower) terms.

(** [for terms, key in prioritized_phrases.items(): ...]; [Some text] when
    the loop returns [text], [None] when it runs to its end. *)
Fixpoint check_prioritized (rules : list (list string * string))
    (query_lower : string) : option string :=
  match rules with
  | [] => None
  | (terms, key) :: rest =>
      if satisfied terms query_lower then
        match sections !! key with
        | Some text => Some text
        | None => check_prioritized rest query_lower
        end
      else check_prioritized rest query_lower
  end.

(** [str(list(citizenship_mapping.keys()))] *)
Definition repr_list (items : list string) : string :=
  "[" ++ join ", " (map str_repr items) ++ "]".

Definition citizenship_message : string :=
  "It seems you're interested in citizenship. "
  ++ "Available subtopics include: "
  ++ repr_list (map fst citizenship_mapping) ++ ".".

(** The [if section_key in sections: ... elif ...: ...] chain and the
    final [return]. *)
Definition resolve (section_key : option string) : string :=
  match section_key with
  | Some key =>
      match sections !! key with
      | Some text => text
      | None =>
          if String.eqb key "citizenship" then citizenship_message
          else no_answer_message
      end
  | None => no_answer_message
  end.

Definition answer_body (query : string) : result string :=
  let query_lower := str_lower query in
  match check_prioritized prioritized_phrases query_lower with
  | Some text => Ok text
  | None =>
      section_key ← match_with_synonyms query;
      Ok (resolve section_key)
  end.

Definition answer_question_nlp (query : string) : result string :=
  try_except (answer_body query) (λ e, Ok error_message).

End Pipeline.

(** ** The Resolver around any matching stage

    [match_with_synonyms] has no handler of its own: what is raised in it
    outside [preprocess_query] and [correct_spelling] reaches the handler of
    [answer_question_nlp].  [answer_question_with] is [answer_question_nlp]
    with the call [match_with_synonyms(query, ...)] taken as a parameter,
    the [try] block and its handler being the same. *)

Section ResolverBoundary.
Context {rt : Runtime} {ks : KnowledgeStore}.



End ResolverBoundary.

(** ** The terms of the specification

    The Matcher as the specification words it: an ordered list of rules,
    each with a firing condition on the corrected text and the key it
    yields; the first rule that fires decides. *)

Record MatchRule : Type := {
  fires : string -> bool;
  target : string;
}.

Fixpoint first_firing (rules : list MatchRule) (text : string)
  : option string :=
  match rules with
  | [] => None
  | rule :: rest =>
      if fires rule text then Some (target rule) else first_firing rest text
  end.

Section SpecificationTerms.
Context {rt : Runtime} {ks : KnowledgeStore}.

Definition subtopic_rule (item : string * string) : MatchRule :=
  {| fires := contains (str_lower (fst item)); target := snd item |}.

Definition general_citizenship_rule : MatchRule :=
  {| fires := contains "citizenship"; target := "citizenship" |}.

Definition synonym_rule (key : string) : MatchRule :=
  {| fires := λ text, existsb (λ term, contains term text) (search_terms key);
     target := key |}.

Definition matcher_rules : list MatchRule :=
  map subtopic_rule citizenship_mapping
  ++ [general_citizenship_rule]
  ++ map synonym_rule (map fst qa_mapping).

(** The word a token leaves in the normalized text. *)
Definition lemma_word (token : Token) : string := str_lower (lemma_ token).

(** Two properties a language pipeline may have, for a class [is_word] of
    words and an analysis [analyse] of a single word.  The pipeline works
    word by word when it segments a single-space join of words into these
    words, each analysed on its own. *)
Definition word_by_word (is_word : string -> bool)
    (analyse : string -> Token) : Prop :=
  ∀ words,
    forallb is_word words = true ->
    nlp (join " " words) = Ok (map analyse words).

(** Its lemmas are stable when the lowercased lemma of a word that is kept
    is a word that is kept in turn and is its own lowercased lemma. *)
Definition stable_lemmas (is_word : string -> bool)
    (analyse : string -> Token) : Prop :=
  ∀ word,
    is_word word = true ->
    kept (analyse word) = true ->
    is_word (lemma_word (analyse word)) = true
    ∧ kept (analyse (lemma_word (analyse word))) = true
    ∧ lemma_word (analyse (lemma_word (analyse word)))
      = lemma_word (analyse word).

(** The first rule of the phrase table, in declared order, all of whose
    terms occur in the lowercased query. *)
Definition first_satisfied (rules : list (list string * string))
    (query_lower : string) : option (list string * string) :=
  List.find (λ rule, satisfied (fst rule) query_lower) rules.

End SpecificationTerms.

(** A rule the loop passes over: a term is missing from the query, or the
    rule's key has no section. *)
Definition passed_over {ks : KnowledgeStore} (query_lower : string)
    (rule : list string * string) : Prop :=
  satisfied (fst rule) query_lower = false ∨ sections !! (snd rule) = None.

(** ** A reference runtime and sample tables

    An ASCII instance of [Runtime] on which the definitions can be run: the
    three string methods as Python defines them on ASCII text, a tokenizer
    that splits on blanks and knows a few stopwords, and a spell checker
    over a small dictionary. *)

Module Reference.

Definition lower_char (c : ascii) : ascii :=
  let n := nat_of_ascii c in
  if (65 <=? n)%nat && (n <=? 90)%nat then ascii_of_nat (n + 32) else c.

Fixpoint lower (s : string) : string :=
  match s with
  | EmptyString => EmptyString
  | String c rest => String (lower_char c) (lower rest)
  end.

(** The ASCII characters [str.split()] splits on. *)
Definition is_blank (c : ascii) : bool :=
  let n := nat_of_ascii c in
  ((9 <=? n)%nat && (n <=? 13)%nat)
  || ((28 <=? n)%nat && (n <=? 32)%nat).

Definition close_word (word : string) (words : list string) : list string :=
  match word with
  | EmptyString => words
  | _ => word :: words
  end.

Fixpoint split_from (word : string) (s : string) : list string :=
  match s with
  | EmptyString => close_word word []
  | String c rest =>
      if is_blank c then close_word word (split_from "" rest)
      else split_from (word ++ String c "") rest
  end.

Definition split (s : string) : list string := split_from "" s.

Definition quote : ascii := ascii_of_nat 39.
Definition double_quote : ascii := ascii_of_nat 34.
Definition backslash : ascii := ascii_of_nat 92.

Fixpoint has_char (c : ascii) (s : string) : bool :=
  match s with
  | EmptyString => false
  | String d rest => Ascii.eqb c d || has_char c rest
  end.

Definition hex_digit (n : nat) : ascii :=
  if (n <? 10)%nat then ascii_of_nat (48 + n) else ascii_of_nat (87 + n).

Definition escape_char (delim : ascii) (c : ascii) : string :=
  let n := nat_of_ascii c in
  if Ascii.eqb c delim || Ascii.eqb c backslash then String backslash (String c "")
  else if (n =? 9)%nat then String backslash "t"
  else if (n =? 10)%nat then String backslash "n"
  else if (n =? 13)%nat then String backslash "r"
  else if (n <? 32)%nat || (n =? 127)%nat then
    String backslash
      (String "x" (String (hex_digit (n / 16)) (String (hex_digit (n mod 16)) "")))
  else String c "".

Fixpoint escape (delim : ascii) (s : string) : string :=
  match s with
  | EmptyString => EmptyString
  | String c rest => escape_char delim c ++ escape delim rest
  end.

Definition repr (s : string) : string :=
  let delim :=
    if has_char quote s && negb (has_char double_quote s) then double_quote
    else quote in
  String delim (escape delim s ++ String delim "").

Definition stopwords : list string :=
  ["a"; "an"; "the"; "is"; "of"; "to"; "do"; "i"; "how"; "what"; "has"; "over"].

Definition is_punct_char (c : ascii) : bool :=
  let n := nat_of_ascii c in
  ((33 <=? n)%nat && (n <=? 47)%nat) || ((58 <=? n)%nat && (n <=? 64)%nat)
  || ((91 <=? n)%nat && (n <=? 96)%nat) || ((123 <=? n)%nat && (n <=? 126)%nat).

Fixpoint all_punct (s : string) : bool :=
  match s with
  | EmptyString => true
  | String c rest => is_punct_char c && all_punct rest
  end.

Definition member (word : string) (words : list string) : bool :=
  existsb (String.eqb word) words.

Definition token_of (word : string) : Token :=
  {| lemma_ := word;
     is_stop := member (lower word) stopwords;
     is_punct := all_punct word;
     is_space := false |}.

Definition tokenizer (query : string) : result (list Token) :=
  Ok (map token_of (split query)).

Definition dictionary : list string :=
  ["become"; "citizen"; "citizenship"; "court"; "authority"; "bill"; "right";
   "birth"; "language"; "culture"; "parliament"].

Definition unknown (words : list string) : result (gset string) :=
  Ok (list_to_set (List.filter (λ word, negb (member word dictionary)) words)).

Definition corrections : list (string * string) :=
  [("becom", "become"); ("citzen", "citizen"); ("citizenshp", "citizenship")].

Fixpoint candidate (table : list (string * string)) (word : string)
  : option string :=
  match table with
  | [] => None
  | (misspelt, fixed) :: rest =>
      if String.eqb word misspelt then Some fixed else candidate rest word
  end.

Definition correction (word : string) : result (option string) :=
  Ok (candidate corrections word).

Definition runtime : Runtime :=
  {| str_lower := lower; str_split := split; str_repr := repr;
     nlp := tokenizer; spell_unknown := unknown;
     spell_correction := correction |}.

(** The same runtime with a language pipeline and a spell checker that
    raise on every call. *)
Definition failing_runtime : Runtime :=
  {| str_lower := lower; str_split := split; str_repr := repr;
     nlp := λ _, Raise (LibraryError "pipeline failure");
     spell_unknown := λ _, Raise (LibraryError "dictionary failure");
     spell_correction := λ _, Raise (LibraryError "dictionary failure") |}.

Definition citizenship_items : list (string * string) :=
  [("Citizenship by birth", "citizenship birth");
   ("Dual citizenship", "dual citizenship")].

Definition qa_items : list (string * string) :=
  [("parliament", ""); ("court", "")].

Definition synonym_items : gmap string (list string) :=
  {[ "parliament" := ["National Assembly"; "senate"] ]}.

(** Every key the phrase table and the mappings refer to has a section. *)
Definition full_store : KnowledgeStore :=
  {| sections :=
       <[ "language culture" := "Article 7." ]>
       (<[ "implementation right" := "Article 21." ]>
       (<[ "authority court bill right" := "Article 23." ]>
       (<[ "citizenship birth" := "Article 14." ]>
       (<[ "dual citizenship" := "Article 16." ]>
       (<[ "parliament" := "Chapter Eight." ]> ∅)))));
     synonyms := synonym_items;
     qa_mapping := qa_items;
     citizenship_mapping := citizenship_items |}.

(** The section of the first phrase rule is missing. *)
Definition partial_store : KnowledgeStore :=
  {| sections := {[ "implementation right" := "Article 21." ]};
     synonyms := synonym_items;
     qa_mapping := qa_items;
     citizenship_mapping := citizenship_items |}.

(** A section is filed under the key ["citizenship"]. *)
Definition chapter_store : KnowledgeStore :=
  {| sections := {[ "citizenship" := "Chapter Three." ]};
     synonyms := ∅;
     qa_mapping := [];
     citizenship_mapping := citizenship_items |}.

(** A section whose answer text is the empty string. *)
Definition blank_store : KnowledgeStore :=
  {| sections := {[ "language culture" := "" ]};
     synonyms := ∅;
     qa_mapping := [];
     citizenship_mapping := [] |}.

End Reference.

(** ** Four properties in the wording of the specification

    Each is stated for one query, so that it can be tested on the sample
    tables. *)

Section StatedProperties.
Context {rt : Runtime} {ks : KnowledgeStore}.

(** The answer is the section of the first phrase rule whose terms all
    occur in the lowercased query. *)
Definition phrase_answer_stated (query : string) : Prop :=
  ∀ terms key,
    first_satisfied prioritized_phrases (str_lower query) = Some (terms, key) ->
    ∃ text, sections !! key = Some text ∧ answer_question_nlp query = Ok text.

(** A corrected text with "citizenship", no subtopic and no phrase rule is
    answered by the list of subtopics. *)
Definition citizenship_listing_stated (query : string) : Prop :=
  ∀ processed corrected,
    preprocess_query query = Ok processed ->
    correct_spelling processed = Ok corrected ->
    contains "citizenship" corrected = true ->
    Forall (λ item, contains (str_lower (fst item)) corrected = false)
           citizenship_mapping ->
    Forall (λ rule, satisfied (fst rule) (str_lower query) = false)
           prioritized_phrases ->
    answer_question_nlp query = Ok citizenship_message.

(** The answer is never the empty string. *)
Definition nonempty_answer_stated (query : string) : Prop :=
  ∀ text, answer_question_nlp query = Ok text -> text ≠ "".

(** Normalizing once more changes nothing in a text that the Normalizer
    has produced and in which the pipeline finds no stopword, punctuation
    or whitespace token. *)
Definition idempotence_stated (x : string) : Prop :=
  (∃ raw, preprocess_query raw = Ok x) ->
  (∃ doc, nlp x = Ok doc ∧ forallb kept doc = true) ->
  ∃ once, preprocess_query x = Ok once ∧ preprocess_query once = Ok once.

End StatedProperties.

(** ** Loading the tables ([load_json_file])

    A file is named relative to the directory of the program.  Opening it
    and decoding its JSON text may each raise; the three [except] clauses
    of [load_json_file] tell the classes of exception apart.  A document is
    decoded at the type the pipeline uses the table at. *)

Inductive load_exn : Type :=
| FileNotFoundError
| JSONDecodeError (msg : string)
| OtherLoadError (msg : string).

Inductive loaded (A : Type) : Type :=
| Loaded (a : A)
| LoadRaise (e : load_exn).

Arguments Loaded {A} a.
Arguments LoadRaise {A} e.

Definition load_raises {A : Type} (m : loaded A) : Prop :=
  exists e, m = LoadRaise e.

(** [open(filepath, "r", encoding="utf-8")]: the text of the file. *)
Class FileSystem : Type := {
  open_file : string -> loaded string;
}.

(** [json.load] at the types of the four tables. *)
Class JsonDecoder : Type := {
  decode_sections : string -> loaded (gmap string string);
  decode_synonyms : string -> loaded (gmap string (list string));
  decode_mapping : string -> loaded (list (string * string));
}.

Section Loading.
Context {fs : FileSystem} {json : JsonDecoder}.

(** The [with open(...) as f: return json.load(f)] block. *)
Definition read_json {T : Type} (json_load : string -> loaded T)
    (filename : string) : loaded T :=
  match open_file filename with
  | Loaded f => json_load f
  | LoadRaise e => LoadRaise e
  end.

(** [empty] is the [{}] the handlers return, at the type of the table. *)
Definition load_json_file {T : Type} (empty : T)
    (json_load : string -> loaded T) (filename : string) : T :=
  match read_json json_load filename with
  | Loaded table => table
  | LoadRaise FileNotFoundError => empty
  | LoadRaise (JSONDecodeError _) => empty
  | LoadRaise (OtherLoadError _) => empty
  end.

(** The four module-level assignments that load the knowledge base. *)
Definition load_knowledge_base : KnowledgeStore :=
  {| sections := load_json_file ∅ decode_sections "combined_sections.json";
     synonyms := load_json_file ∅ decode_synonyms "synonyms.json";
     qa_mapping := load_json_file [] decode_mapping "qa_mapping.json";
     citizenship_mapping :=
       load_json_file [] decode_mapping "citizenship_mapping.json" |}.

End Loading.

(** ** The message handler ([handle_message])

    The handler is a coroutine whose awaits follow one another, so it is
    modelled as a sequential program over the log of the calls to the bot
    that have returned.  Whether a call returns or raises is decided by the
    bot, and may depend on the calls made so far. *)

Module Telegram.

Record Message : Type := {
  text : option string;
}.

(** [effective_user] and [effective_chat] are [None] or an object of which
    the handler reads the [id]. *)
Record Update : Type := {
  message : option Message;
  effective_user : option Z;
  effective_chat : option Z;
}.

Inductive call : Type :=
| SendChatAction (chat_id : Z) (action : string)
| ReplyText (text : string).

End Telegram.

Inductive failure : Type :=
| AttributeError (attribute : string)
| TelegramError (msg : string)
| CoreError (e : exn).

Inductive outcome (A : Type) : Type :=
| Done (a : A)
| Failed (f : failure).

Arguments Done {A} a.
Arguments Failed {A} f.

(** [refuses log c] is [None] when the call [c], made after the calls of
    [log], returns, and the exception it raises otherwise. *)
Class Bot : Type := {
  refuses : list Telegram.call -> Telegram.call -> option failure;
}.

Definition io (A : Type) : Type :=
  list Telegram.call -> list Telegram.call * outcome A.

Definition io_ret {A : Type} (a : A) : io A := λ log, (log, Done a).

Definition io_fail {A : Type} (f : failure) : io A := λ log, (log, Failed f).

Definition io_bind {A B : Type} (m : io A) (k : A -> io B) : io B :=
  λ log,
    match m log with
    | (log', Done a) => k a log'
    | (log', Failed f) => (log', Failed f)
    end.

(** [try: body except Exception as e: handler e] *)
Definition io_try {A : Type} (body : io A) (handler : failure -> io A)
  : io A :=
  λ log,
    match body log with
    | (log', Done a) => (log', Done a)
    | (log', Failed f) => handler f log'
    end.

(** An awaited call to the bot. *)
Definition perform {bot : Bot} (c : Telegram.call) : io unit :=
  λ log,
    match refuses log c with
    | None => ((log ++ [c])%list, Done tt)
    | Some f => (log, Failed f)
    end.

(** [object.name] where [object] may be [None]. *)
Definition attribute {A : Type} (object : option A) (name : string) : io A :=
  match object with
  | Some a => io_ret a
  | None => io_fail (AttributeError name)
  end.

(** A call into the pipeline. *)
Definition lift {A : Type} (m : result A) : io A :=
  match m with
  | Ok a => io_ret a
  | Raise e => io_fail (CoreError e)
  end.

Definition handler_error_message : string :=
  "Sorry, I encountered an error. Please try again later.".

Section Handler.
Context {bot : Bot} {rt : Runtime} {ks : KnowledgeStore}.

Definition handle_message_body (update : Telegram.Update) : io unit :=
  match Telegram.message update with
  | None => io_ret tt
  | Some message =>
      match Telegram.text message with
      | None => io_ret tt
      | Some user_query =>
          if String.eqb user_query "" then io_ret tt
          else
            io_bind (attribute (Telegram.effective_user update) "id") (λ _,
            io_bind (attribute (Telegram.effective_chat update) "id") (λ chat_id,
            io_bind (perform (Telegram.SendChatAction chat_id "typing")) (λ _,
            io_bind (lift (answer_question_nlp user_query)) (λ answer,
            perform (Telegram.ReplyText answer)))))
      end
  end.

Definition handle_message (update : Telegram.Update) : io unit :=
  io_try (handle_message_body update)
    (λ e,
       match Telegram.message update with
       | Some _ => perform (Telegram.ReplyText handler_error_message)
       | None => io_ret tt
       end).

End Handler.

(** The answer of the pipeline to the text of an update, if it has one. *)
Definition answer_for {rt : Runtime} {ks : KnowledgeStore}
    (update : Telegram.Update) : option string :=
  match Telegram.message update with
  | Some message =>
      match Telegram.text message with
      | Some user_query =>
          match answer_question_nlp user_query with
          | Ok answer => Some answer
          | Raise _ => None
          end
      | None => None
      end
  | None => None
  end.

(** What [handle_message] adds to the log: the typing indicator of a chat,
    then possibly one reply. *)
Inductive handler_calls (answer : option string)
  : list Telegram.call -> Prop :=
| calls_none : handler_calls answer []
| calls_apology :
    handler_calls answer [Telegram.ReplyText handler_error_message]
| calls_typing chat_id :
    handler_calls answer [Telegram.SendChatAction chat_id "typing"]
| calls_typing_apology chat_id :
    handler_calls answer [Telegram.SendChatAction chat_id "typing";
                          Telegram.ReplyText handler_error_message]
| calls_typing_answer chat_id text :
    answer = Some text ->
    handler_calls answer [Telegram.SendChatAction chat_id "typing";
                          Telegram.ReplyText text].

(** ** Sample collaborators of the loader and of the handler *)

Module Samples.

(** A tokenizer like [Reference.tokenizer] that also lemmatizes, from a
    table of inflected forms, and counts "see" among the stopwords. *)
Definition lemmas : list (string * string) :=
  [("courts", "court"); ("sawed", "saw"); ("saw", "see")].

Definition lemma_of (word : string) : string :=
  default word (Reference.candidate lemmas (Reference.lower word)).

Definition lemma_token (word : string) : Token :=
  {| lemma_ := lemma_of word;
     is_stop := Reference.member (Reference.lower word)
                  ("see" :: Reference.stopwords);
     is_punct := Reference.all_punct word;
     is_space := false |}.

Definition lemmatizing_runtime : Runtime :=
  {| str_lower := Reference.lower; str_split := Reference.split;
     str_repr := Reference.repr;
     nlp := λ query, Ok (map lemma_token (Reference.split query));
     spell_unknown := Reference.unknown;
     spell_correction := Reference.correction |}.

(** The words [Reference.split] yields: not empty and without a blank. *)
Fixpoint no_blank (s : string) : bool :=
  match s with
  | EmptyString => true
  | String c rest => negb (Reference.is_blank c) && no_blank rest
  end.

Definition plain_word (word : string) : bool :=
  negb (String.eqb word "") && no_blank word.


(** No file of the knowledge base exists. *)
Definition no_files : FileSystem :=
  {| open_file := λ _, LoadRaise FileNotFoundError |}.

(** Every file holds text that is not JSON. *)
Definition garbled_files : FileSystem :=
  {| open_file := λ _, Loaded "{" |}.

Definition strict_decoder : JsonDecoder :=
  {| decode_sections := λ _, LoadRaise (JSONDecodeError "Expecting property name");
     decode_synonyms := λ _, LoadRaise (JSONDecodeError "Expecting property name");
     decode_mapping := λ _, LoadRaise (JSONDecodeError "Expecting property name") |}.

(** A bot all of whose calls return. *)
Definition reliable_bot : Bot := {| refuses := λ _ _, None |}.

(** A bot that refuses an empty text, as the Bot API does, and nothing
    else. *)
Definition api_bot : Bot :=
  {| refuses := λ _ c,
       match c with
       | Telegram.ReplyText "" => Some (TelegramError "Message text is empty")
       | _ => None
       end |}.

(** A bot whose every call raises. *)
Definition offline_bot : Bot :=
  {| refuses := λ _ _, Some (TelegramError "Timed out") |}.

Definition text_update (query : string) : Telegram.Update :=
  {| Telegram.message := Some {| Telegram.text := Some query |};
     Telegram.effective_user := Some 7%Z;
     Telegram.effective_chat := Some (-100)%Z |}.

Definition photo_update : Telegram.Update :=
  {| Telegram.message := Some {| Telegram.text := None |};
     Telegram.effective_user := Some 7%Z;
     Telegram.effective_chat := Some (-100)%Z |}.

(** A message with text for which the library reports no sender. *)
Definition anonymous_update (query : string) : Telegram.Update :=
  {| Telegram.message := Some {| Telegram.text := Some query |};
     Telegram.effective_user := None;
     Telegram.effective_chat := Some (-100)%Z |}.

End Samples.

(** * Properties *)

(** ** Exceptions stop at the handlers *)

Lemma try_except_returns {A : Type} (body : result A) (fallback : A) :
  returns (try_except body (λ _, Ok fallback)).
Proof. destruct body as [a | e]; [exists a | exists fallback]; reflexivity. Qed.

Lemma try_except_raise_any {A : Type} (body : result A) (fallback : A) :
  raises body -> try_except body (λ _, Ok fallback) = Ok fallback.
Proof. intros [e ->]. reflexivity. Qed.

Lemma raises_bind {A B : Type} (m : result A) (k : A -> result B) :
  raises m -> raises (m ≫= k).
Proof. intros [e ->]. exists e. reflexivity. Qed.

Section Totality.
Context {rt : Runtime} {ks : KnowledgeStore}.

Lemma preprocess_query_returns (query : string) :
  returns (preprocess_query query).
Proof. apply try_except_returns. Qed.

Lemma correct_spelling_returns (processed_query : string) :
  returns (correct_spelling processed_query).
Proof. apply try_except_returns. Qed.

Lemma match_with_synonyms_returns (query : string) :
  ∃ processed corrected,
    preprocess_query query = Ok processed
    ∧ correct_spelling processed = Ok corrected
    ∧ match_with_synonyms query = Ok (match_corrected corrected).
Proof.
  destruct (preprocess_query_returns query) as [processed Hp].
  destruct (correct_spelling_returns processed) as [corrected Hc].
  exists processed, corrected. repeat split; try assumption.
  unfold match_with_synonyms. rewrite Hp. cbn. rewrite Hc. reflexivity.
Qed.

(** Both stages that call a library absorb its exceptions, so the body of
    [answer_question_nlp] returns whatever the libraries do. *)
Lemma answer_body_returns (query : string) : returns (answer_body query).
Proof.
  unfold answer_body.
  destruct (check_prioritized _ _) as [text |]; [exists text; reflexivity |].
  destruct (match_with_synonyms_returns query) as (p & c & _ & _ & ->).
  eexists. reflexivity.
Qed.

End Totality.

(** ** The prioritized phrase check *)

Section PhraseCheck.
Context {ks : KnowledgeStore}.

Lemma check_prioritized_cons terms key rest query_lower :
  check_prioritized ((terms, key) :: rest) query_lower
  = if satisfied terms query_lower then
      match sections !! key with
      | Some text => Some text
      | None => check_prioritized rest query_lower
      end
    else check_prioritized rest query_lower.
Proof. reflexivity. Qed.

Lemma check_prioritized_hit terms key rest query_lower text :
  satisfied terms query_lower = true ->
  sections !! key = Some text ->
  check_prioritized ((terms, key) :: rest) query_lower = Some text.
Proof.
  intros Hsat Hkey. rewrite check_prioritized_cons, Hsat, Hkey. reflexivity.
Qed.

Lemma check_prioritized_skip rule rest query_lower :
  passed_over query_lower rule ->
  check_prioritized (rule :: rest) query_lower
  = check_prioritized rest query_lower.
Proof.
  destruct rule as [terms key]. unfold passed_over. cbn [fst snd].
  intros [Hsat | Hkey]; rewrite check_prioritized_cons.
  - rewrite Hsat. reflexivity.
  - rewrite Hkey. destruct (satisfied terms query_lower); reflexivity.
Qed.

Lemma check_prioritized_app_skip before rest query_lower :
  Forall (passed_over query_lower) before ->
  check_prioritized (before ++ rest) query_lower
  = check_prioritized rest query_lower.
Proof.
  induction 1 as [| rule before Hrule _ IH]; [reflexivity |].
  rewrite <- app_comm_cons, check_prioritized_skip by assumption. exact IH.
Qed.

Lemma check_prioritized_app before rest query_lower :
  check_prioritized (before ++ rest) query_lower
  = match check_prioritized before query_lower with
    | Some text => Some text
    | None => check_prioritized rest query_lower
    end.
Proof.
  induction before as [| [terms key] before IH]; [reflexivity |].
  rewrite <- app_comm_cons, !check_prioritized_cons.
  destruct (satisfied terms query_lower); [| exact IH].
  destruct (sections !! key); [reflexivity | exact IH].
Qed.

Lemma check_prioritized_none rules query_lower :
  Forall (passed_over query_lower) rules ->
  check_prioritized rules query_lower = None.
Proof.
  intros Hall. rewrite <- (app_nil_r rules).
  rewrite check_prioritized_app_skip by assumption. reflexivity.
Qed.

End PhraseCheck.

(** The phrase check reads [sections] and nothing else of the store. *)
Lemma check_prioritized_ext (ks ks' : KnowledgeStore) rules query_lower :
  @sections ks' = @sections ks ->
  @check_prioritized ks' rules query_lower
  = @check_prioritized ks rules query_lower.
Proof.
  intros Heq. induction rules as [| [terms key] rules IH]; [reflexivity |].
  rewrite !check_prioritized_cons, Heq, IH. reflexivity.
Qed.

Section Resolver.
Context {rt : Runtime} {ks : KnowledgeStore}.

Lemma answer_of_phrase query text :
  check_prioritized prioritized_phrases (str_lower query) = Some text ->
  answer_question_nlp query = Ok text.
Proof.
  intros Hcheck. unfold answer_question_nlp, answer_body.
  rewrite Hcheck. reflexivity.
Qed.

Lemma answer_of_matcher query :
  check_prioritized prioritized_phrases (str_lower query) = None ->
  ∃ processed corrected,
    preprocess_query query = Ok processed
    ∧ correct_spelling processed = Ok corrected
    ∧ match_with_synonyms query = Ok (match_corrected corrected)
    ∧ answer_question_nlp query = Ok (resolve (match_corrected corrected)).
Proof.
  intros Hcheck.
  destruct (match_with_synonyms_returns query) as (p & c & Hp & Hc & Hm).
  exists p, c. repeat split; try assumption.
  unfold answer_question_nlp, answer_body. rewrite Hcheck, Hm. reflexivity.
Qed.

End Resolver.

(** ** The phrase check in the Resolver *)

(** C1, as stated, fails: with the section of the first satisfied rule
    missing, the answer is the section of a later rule. *)
Lemma phrase_answer_stated_fails :
  ¬ @phrase_answer_stated Reference.runtime Reference.partial_store
      "language culture implementation rights".
Proof.
  intros Hclaim.
  destruct (Hclaim ["language"; "culture"] "language culture" eq_refl)
    as (text & Hlookup & _).
  vm_compute in Hlookup. discriminate Hlookup.
Qed.

(** C1, amended: when a phrase rule is satisfied by the lowercased raw
    query and its key has a section, and every rule declared before it is
    unsatisfied or has no section, the answer is that section; it is the
    same under any other language pipeline, spell checker, synonym table
    and mappings. *)
Theorem first_present_phrase_rule_answers
    (rt : Runtime) (ks : KnowledgeStore) (query : string)
    (before after : list (list string * string))
    (terms : list string) (key text : string) :
  prioritized_phrases = (before ++ (terms, key) :: after)%list ->
  Forall (passed_over (str_lower query)) before ->
  satisfied terms (str_lower query) = true ->
  sections !! key = Some text ->
  answer_question_nlp query = Ok text
  ∧ ∀ (rt' : Runtime) (ks' : KnowledgeStore),
      @str_lower rt' query = @str_lower rt query ->
      @sections ks' = @sections ks ->
      @answer_question_nlp rt' ks' query = Ok text.
Proof.
  intros Hrules Hbefore Hsat Hkey.
  assert (Hcheck : check_prioritized prioritized_phrases (str_lower query)
                   = Some text).
  { rewrite Hrules, check_prioritized_app_skip by assumption.
    apply check_prioritized_hit; assumption. }
  split; [apply answer_of_phrase; exact Hcheck |].
  intros rt' ks' Hlower Hsections. apply answer_of_phrase.
  rewrite Hlower, (check_prioritized_ext ks ks') by assumption.
  exact Hcheck.
Qed.

Lemma first_present_phrase_rule_answers_witness :
  @answer_question_nlp Reference.runtime Reference.full_store
    "What court has authority over the bill of rights?" = Ok "Article 23."
  ∧ ∀ (rt' : Runtime) (ks' : KnowledgeStore),
      @str_lower rt' "What court has authority over the bill of rights?"
      = Reference.lower "What court has authority over the bill of rights?" ->
      @sections ks' = @sections Reference.full_store ->
      @answer_question_nlp rt' ks'
        "What court has authority over the bill of rights?" = Ok "Article 23.".
Proof.
  apply (first_present_phrase_rule_answers
           Reference.runtime Reference.full_store
           "What court has authority over the bill of rights?"
           [ (["language"; "culture"], "language culture");
             (["implementation"; "rights"], "implementation right") ]
           []
           ["authority"; "court"; "bill"; "right"]
           "authority court bill right" "Article 23.").
  - reflexivity.
  - repeat constructor; left; reflexivity.
  - reflexivity.
  - vm_compute. reflexivity.
Defined.

(** C10: a satisfied phrase rule whose key has no section does not end the
    resolution.  The loop goes on as if the rule were not in the table, and
    when every satisfied rule lacks its section the query is normalized,
    corrected and matched, and the answer is resolved from the Matcher's
    key. *)
Theorem missing_phrase_section_falls_through
    (rt : Runtime) (ks : KnowledgeStore) (query : string)
    (before after : list (list string * string))
    (terms : list string) (key : string) :
  prioritized_phrases = (before ++ (terms, key) :: after)%list ->
  satisfied terms (str_lower query) = true ->
  sections !! key = None ->
  check_prioritized prioritized_phrases (str_lower query)
  = check_prioritized (before ++ after) (str_lower query)
  ∧ (Forall (passed_over (str_lower query)) (before ++ after)%list ->
     ∃ processed corrected,
       preprocess_query query = Ok processed
       ∧ correct_spelling processed = Ok corrected
       ∧ answer_question_nlp query = Ok (resolve (match_corrected corrected))).
Proof.
  intros Hrules Hsat Hkey.
  assert (Hsame : check_prioritized prioritized_phrases (str_lower query)
                  = check_prioritized (before ++ after) (str_lower query)).
  { rewrite Hrules, !check_prioritized_app, check_prioritized_skip.
    - reflexivity.
    - right. exact Hkey. }
  split; [exact Hsame |].
  intros Hothers.
  destruct (answer_of_matcher query) as (p & c & Hp & Hc & _ & Hanswer).
  - rewrite Hsame. apply check_prioritized_none. exact Hothers.
  - exists p, c. auto.
Qed.

Lemma missing_phrase_section_falls_through_witness :
  @check_prioritized Reference.partial_store prioritized_phrases
     (Reference.lower "Language and culture")
  = @check_prioritized Reference.partial_store
      [ (["implementation"; "rights"], "implementation right");
        (["authority"; "court"; "bill"; "right"], "authority court bill right") ]
      (Reference.lower "Language and culture")
  ∧ ∃ processed corrected,
      @preprocess_query Reference.runtime "Language and culture" = Ok processed
      ∧ @correct_spelling Reference.runtime processed = Ok corrected
      ∧ @answer_question_nlp Reference.runtime Reference.partial_store
          "Language and culture"
        = Ok (@resolve Reference.runtime Reference.partial_store
                (@match_corrected Reference.runtime Reference.partial_store
                   corrected)).
Proof.
  destruct (missing_phrase_section_falls_through
              Reference.runtime Reference.partial_store "Language and culture"
              [] _ ["language"; "culture"] "language culture"
              eq_refl eq_refl eq_refl) as [Hloop Hstages].
  split; [exact Hloop |].
  apply Hstages. repeat constructor; left; reflexivity.
Defined.

(** ** The fallbacks of the Resolver *)

(** C8: when no phrase rule is satisfied and the Matcher returns no key,
    the answer is the fixed guidance text. *)
Theorem no_match_gives_guidance
    (rt : Runtime) (ks : KnowledgeStore) (query : string) :
  Forall (λ rule, satisfied (fst rule) (str_lower query) = false)
         prioritized_phrases ->
  match_with_synonyms query = Ok None ->
  answer_question_nlp query = Ok no_answer_message.
Proof.
  intros Hphrases Hmatch.
  unfold answer_question_nlp, answer_body.
  rewrite check_prioritized_none, Hmatch; [reflexivity |].
  eapply Forall_impl; [exact Hphrases |]. intros rule Hrule. left. exact Hrule.
Qed.

Lemma no_match_gives_guidance_witness :
  @answer_question_nlp Reference.runtime Reference.full_store "asdkjasd"
  = Ok no_answer_message.
Proof.
  apply (no_match_gives_guidance Reference.runtime Reference.full_store
           "asdkjasd").
  - repeat constructor.
  - vm_compute. reflexivity.
Defined.



(** C6: [preprocess_query] returns for every input, and when the language
    pipeline raises it returns the lowercased input as it stands. *)
Theorem preprocess_query_falls_back (rt : Runtime) (query : string) :
  returns (preprocess_query query)
  ∧ (raises (nlp query) -> preprocess_query query = Ok (str_lower query)).
Proof.
  split; [apply preprocess_query_returns |].
  intros [e He]. unfold preprocess_query, preprocess_body.
  rewrite He. reflexivity.
Qed.

Lemma preprocess_query_falls_back_witness :
  @preprocess_query Reference.failing_runtime "Who APPOINTS  judges?"
  = Ok "who appoints  judges?".
Proof.
  apply (proj2 (preprocess_query_falls_back Reference.failing_runtime
                  "Who APPOINTS  judges?")).
  eexists. reflexivity.
Defined.

(** ** The answer is not empty *)

Section AnswerText.
Context {rt : Runtime} {ks : KnowledgeStore}.

Lemma check_prioritized_section rules query_lower text :
  check_prioritized rules query_lower = Some text ->
  ∃ key, sections !! key = Some text.
Proof.
  induction rules as [| [terms key] rules IH]; [discriminate |].
  rewrite check_prioritized_cons.
  destruct (satisfied terms query_lower); [| exact IH].
  destruct (sections !! key) as [found |] eqn:Hkey; [| exact IH].
  intros [= ->]. exists key. exact Hkey.
Qed.

Lemma no_answer_message_nonempty : no_answer_message ≠ "".
Proof. discriminate. Qed.

Lemma error_message_nonempty : error_message ≠ "".
Proof. discriminate. Qed.

Lemma citizenship_message_nonempty : citizenship_message ≠ "".
Proof. discriminate. Qed.

Lemma resolve_nonempty section_key :
  map_Forall (λ _ text, text ≠ "") sections ->
  resolve section_key ≠ "".
Proof.
  intros Hsections. unfold resolve.
  destruct section_key as [key |]; [| apply no_answer_message_nonempty].
  destruct (sections !! key) as [text |] eqn:Hkey.
  - exact (Hsections key text Hkey).
  - destruct (String.eqb key "citizenship").
    + apply citizenship_message_nonempty.
    + apply no_answer_message_nonempty.
Qed.

End AnswerText.

(** C9, as stated, fails: a section whose text is empty is returned as it
    is. *)
Lemma nonempty_answer_stated_fails :
  ¬ @nonempty_answer_stated Reference.runtime Reference.blank_store
      "language culture".
Proof.
  intros Hclaim. apply (Hclaim ""); reflexivity.
Qed.

(** C9, amended: when no section of the table has an empty text, the
    answer to every query is a non-empty string. *)
Theorem answer_nonempty
    (rt : Runtime) (ks : KnowledgeStore) (query : string) :
  map_Forall (λ _ text, text ≠ "") sections ->
  ∃ text, answer_question_nlp query = Ok text ∧ text ≠ "".
Proof.
  intros Hsections.
  destruct (check_prioritized prioritized_phrases (str_lower query))
    as [text |] eqn:Hcheck.
  - exists text. split; [apply answer_of_phrase; exact Hcheck |].
    destruct (check_prioritized_section _ _ _ Hcheck) as [key Hkey].
    exact (Hsections key text Hkey).
  - destruct (answer_of_matcher query Hcheck) as (p & c & _ & _ & _ & Hanswer).
    eexists. split; [exact Hanswer |]. apply resolve_nonempty. exact Hsections.
Qed.

Lemma answer_nonempty_witness :
  ∃ text,
    @answer_question_nlp Reference.runtime Reference.partial_store
      "Dual citizenship" = Ok text
    ∧ text ≠ "".
Proof.
  apply (answer_nonempty Reference.runtime Reference.partial_store
           "Dual citizenship").
  apply map_Forall_singleton. discriminate.
Defined.

(** ** The Normalizer on normalized text *)

Lemma append_cons (c : ascii) (s rest : string) :
  String c s ++ rest = String c (s ++ rest).
Proof. reflexivity. Qed.

Lemma join_cons (sep part next : string) (rest : list string) :
  join sep (part :: next :: rest) = part ++ sep ++ join sep (next :: rest).
Proof. reflexivity. Qed.

Lemma filter_all {A : Type} (keep : A -> bool) (xs : list A) :
  forallb keep xs = true -> List.filter keep xs = xs.
Proof.
  induction xs as [| x xs IH]; [reflexivity |].
  cbn. destruct (keep x); [| discriminate].
  intros Hrest. rewrite IH by exact Hrest. reflexivity.
Qed.

Lemma forallb_map {A B : Type} (f : A -> B) (p : B -> bool) (xs : list A) :
  forallb p (map f xs) = forallb (λ x, p (f x)) xs.
Proof.
  induction xs as [| x xs IH]; [reflexivity |]. cbn. rewrite IH. reflexivity.
Qed.

Section StableLemmas.
Context {rt : Runtime}.
Variable is_word : string -> bool.
Variable analyse : string -> Token.
Hypothesis Hstable : stable_lemmas is_word analyse.

(** The lowercased lemmas of kept words are words that are kept and are
    their own lowercased lemmas. *)
Lemma lemma_words_stable (words : list string) :
  forallb is_word words = true ->
  forallb kept (map analyse words) = true ->
  let lemmas := map lemma_word (map analyse words) in
  forallb is_word lemmas = true
  ∧ forallb kept (map analyse lemmas) = true
  ∧ map lemma_word (map analyse lemmas) = lemmas.
Proof.
  induction words as [| word words IH]; [repeat split |].
  cbn. intros Hwords Hkept.
  apply andb_prop in Hwords as [Hword Hwords].
  apply andb_prop in Hkept as [Hkept_word Hkept].
  destruct (Hstable word Hword Hkept_word) as (Hw & Hk & Hl).
  destruct (IH Hwords Hkept) as (Hws & Hks & Hls).
  rewrite Hw, Hk, Hl, Hls. repeat split; assumption.
Qed.

Lemma preprocess_words (words : list string) :
  word_by_word is_word analyse ->
  forallb is_word words = true ->
  forallb kept (map analyse words) = true ->
  preprocess_query (join " " words)
  = Ok (join " " (map lemma_word (map analyse words))).
Proof.
  intros Hseg Hwords Hkept.
  unfold preprocess_query, preprocess_body.
  rewrite (Hseg words Hwords). cbn.
  rewrite filter_all by exact Hkept. reflexivity.
Qed.

End StableLemmas.

(** C7, as stated, fails: with a lemmatizer for which "saw" has the lemma
    "see", a stopword, the Normalizer's output "court saw" holds no
    stopword and no punctuation, and is normalized to "court see", which is
    normalized to "court". *)
Lemma idempotence_stated_fails :
  ¬ @idempotence_stated Samples.lemmatizing_runtime "court saw".
Proof.
  intros Hclaim.
  destruct Hclaim as (once & Hfirst & Hsecond).
  - exists "The courts sawed". reflexivity.
  - eexists. split; reflexivity.
  - vm_compute in Hfirst. injection Hfirst as <-.
    vm_compute in Hsecond. discriminate Hsecond.
Qed.

(** C7, amended: when the language pipeline works word by word and its
    lemmas are stable, normalizing the result of the Normalizer once more
    changes nothing, for every single-space join of words in which no
    stopword, punctuation or whitespace token is found. *)
Theorem preprocess_query_idempotent_for_stable_lemmas
    (rt : Runtime) (is_word : string -> bool) (analyse : string -> Token)
    (words : list string) :
  word_by_word is_word analyse ->
  stable_lemmas is_word analyse ->
  forallb is_word words = true ->
  forallb kept (map analyse words) = true ->
  ∃ once,
    preprocess_query (join " " words) = Ok once
    ∧ preprocess_query once = preprocess_query (join " " words).
Proof.
  intros Hseg Hstable Hwords Hkept.
  destruct (lemma_words_stable is_word analyse Hstable words Hwords Hkept)
    as (Hlemma_words & Hlemma_kept & Hlemma_fixed).
  exists (join " " (map lemma_word (map analyse words))).
  rewrite (preprocess_words is_word analyse words Hseg Hwords Hkept).
  split; [reflexivity |].
  rewrite (preprocess_words is_word analyse _ Hseg Hlemma_words Hlemma_kept).
  rewrite Hlemma_fixed. reflexivity.
Qed.

(** The reference tokenizer works word by word on plain words, and its
    lemmas, the words themselves, are stable. *)

Lemma append_empty_r (s : string) : s ++ "" = s.
Proof.
  induction s as [| c s IH]; [reflexivity |].
  rewrite append_cons, IH. reflexivity.
Qed.

Lemma append_assoc (s t u : string) : (s ++ t) ++ u = s ++ t ++ u.
Proof.
  induction s as [| c s IH]; [reflexivity |].
  rewrite !append_cons, IH. reflexivity.
Qed.

Lemma lower_char_idempotent (c : ascii) :
  Reference.lower_char (Reference.lower_char c) = Reference.lower_char c.
Proof. destruct c as [[] [] [] [] [] [] [] []]; reflexivity. Qed.

Lemma is_blank_lower_char (c : ascii) :
  Reference.is_blank (Reference.lower_char c) = Reference.is_blank c.
Proof. destruct c as [[] [] [] [] [] [] [] []]; reflexivity. Qed.

Lemma is_punct_lower_char (c : ascii) :
  Reference.is_punct_char (Reference.lower_char c) = Reference.is_punct_char c.
Proof. destruct c as [[] [] [] [] [] [] [] []]; reflexivity. Qed.

Lemma lower_idempotent (s : string) :
  Reference.lower (Reference.lower s) = Reference.lower s.
Proof.
  induction s as [| c s IH]; [reflexivity |].
  cbn. rewrite lower_char_idempotent, IH. reflexivity.
Qed.

Lemma all_punct_lower (s : string) :
  Reference.all_punct (Reference.lower s) = Reference.all_punct s.
Proof.
  induction s as [| c s IH]; [reflexivity |].
  cbn. rewrite is_punct_lower_char, IH. reflexivity.
Qed.

Lemma plain_word_lower (s : string) :
  Samples.plain_word (Reference.lower s) = Samples.plain_word s.
Proof.
  unfold Samples.plain_word. f_equal; [destruct s; reflexivity |].
  induction s as [| c s IH]; [reflexivity |].
  cbn. rewrite is_blank_lower_char, IH. reflexivity.
Qed.

Lemma kept_lower (word : string) :
  kept (Reference.token_of (Reference.lower word))
  = kept (Reference.token_of word).
Proof.
  unfold kept, Reference.token_of. cbn.
  rewrite lower_idempotent, all_punct_lower. reflexivity.
Qed.

Lemma reference_lemmas_stable :
  @stable_lemmas Reference.runtime Samples.plain_word Reference.token_of.
Proof.
  intros word Hword Hkept.
  change (@lemma_word Reference.runtime (Reference.token_of word))
    with (Reference.lower word).
  rewrite plain_word_lower, kept_lower. repeat split; try assumption.
  apply lower_idempotent.
Qed.

Lemma split_from_word (word acc rest : string) :
  Samples.no_blank word = true ->
  Reference.split_from acc (word ++ rest)
  = Reference.split_from (acc ++ word) rest.
Proof.
  revert acc. induction word as [| c word IH]; intros acc Hword.
  - rewrite append_empty_r. reflexivity.
  - cbn in Hword. apply andb_prop in Hword as [Hc Hword].
    apply negb_true_iff in Hc.
    rewrite append_cons. cbn [Reference.split_from]. rewrite Hc.
    rewrite (IH _ Hword), append_assoc. reflexivity.
Qed.

Lemma split_join (words : list string) :
  forallb Samples.plain_word words = true ->
  Reference.split (join " " words) = words.
Proof.
  unfold Reference.split.
  induction words as [| word [| next rest] IH]; [reflexivity | |];
    intros Hwords; apply andb_prop in Hwords as [Hword Hrest];
    apply andb_prop in Hword as [Hnonempty Hplain].
  - cbn [join]. rewrite <- (append_empty_r word) at 1.
    rewrite (split_from_word word "" "" Hplain).
    destruct word; [discriminate Hnonempty | reflexivity].
  - rewrite join_cons, (split_from_word word "" _ Hplain).
    change (" " ++ join " " (next :: rest))
      with (String " " (join " " (next :: rest))).
    cbn [Reference.split_from].
    change (Reference.is_blank " ") with true. cbv iota.
    rewrite (IH Hrest).
    destruct word; [discriminate Hnonempty | reflexivity].
Qed.

Lemma reference_word_by_word :
  @word_by_word Reference.runtime Samples.plain_word Reference.token_of.
Proof.
  intros words Hwords.
  change (Ok (map Reference.token_of (Reference.split (join " " words)))
          = Ok (map Reference.token_of words)).
  rewrite split_join by exact Hwords. reflexivity.
Qed.

Lemma preprocess_query_idempotent_for_stable_lemmas_witness :
  ∃ once,
    @preprocess_query Reference.runtime (join " " ["Court"; "Authority"])
    = Ok once
    ∧ @preprocess_query Reference.runtime once
      = @preprocess_query Reference.runtime (join " " ["Court"; "Authority"]).
Proof.
  apply (preprocess_query_idempotent_for_stable_lemmas Reference.runtime
           Samples.plain_word Reference.token_of ["Court"; "Authority"]).
  - exact reference_word_by_word.
  - exact reference_lemmas_stable.
  - reflexivity.
  - reflexivity.
Defined.

(** ** The order of the Matcher's rules *)

Lemma first_firing_app (rules rest : list MatchRule) (text : string) :
  first_firing (rules ++ rest) text
  = match first_firing rules text with
    | Some key => Some key
    | None => first_firing rest text
    end.
Proof.
  induction rules as [| rule rules IH]; [reflexivity |].
  cbn. destruct (fires rule text); [reflexivity | exact IH].
Qed.

(** The first rule that fires, with the rules before it that do not. *)
Lemma first_firing_split (rules : list MatchRule) (text : string) :
  (∃ before rule after,
      rules = (before ++ rule :: after)%list
      ∧ Forall (λ earlier, fires earlier text = false) before
      ∧ fires rule text = true
      ∧ first_firing rules text = Some (target rule))
  ∨ (Forall (λ rule, fires rule text = false) rules
     ∧ first_firing rules text = None).
Proof.
  induction rules as [| rule rules IH].
  - right. split; [constructor | reflexivity].
  - cbn. destruct (fires rule text) eqn:Hfires.
    + left. exists [], rule, rules. repeat split; [constructor | assumption].
    + destruct IH as [(before & hit & after & -> & Hbefore & Hhit & Hfirst)
                     | [Hnone Hfirst]].
      * left. exists (rule :: before), hit, after.
        repeat split; [constructor | |]; assumption.
      * right. split; [constructor |]; assumption.
Qed.

Section MatcherOrder.
Context {rt : Runtime} {ks : KnowledgeStore}.

Lemma match_citizenship_rules items text :
  match_citizenship items text = first_firing (map subtopic_rule items) text.
Proof.
  induction items as [| [subtopic section_key] items IH]; [reflexivity |].
  cbn. rewrite IH. reflexivity.
Qed.

Lemma match_qa_rules keys text :
  match_qa keys text = first_firing (map synonym_rule keys) text.
Proof.
  induction keys as [| key keys IH]; [reflexivity |].
  cbn. rewrite IH. reflexivity.
Qed.

Lemma match_corrected_rules text :
  match_corrected text = first_firing matcher_rules text.
Proof.
  unfold match_corrected, matcher_rules.
  rewrite first_firing_app, <- match_citizenship_rules.
  destruct (match_citizenship citizenship_mapping text); [reflexivity |].
  rewrite first_firing_app. cbn.
  destruct (contains "citizenship" text); [reflexivity |].
  apply match_qa_rules.
Qed.

End MatcherOrder.

(** C2: on every corrected text the Matcher returns what the first rule
    that fires yields, the rules being the subtopic rules in the order of
    [citizenship_mapping], then the general citizenship rule, then the
    synonym rules in the order of [qa_mapping]; the rules after the one
    that fires play no part, and [None] is returned when none fires. *)
Theorem matcher_first_rule_wins
    (rt : Runtime) (ks : KnowledgeStore) (corrected_query : string) :
  match_corrected corrected_query = first_firing matcher_rules corrected_query
  ∧ ((∃ before rule after,
        matcher_rules = (before ++ rule :: after)%list
        ∧ Forall (λ earlier, fires earlier corrected_query = false) before
        ∧ fires rule corrected_query = true
        ∧ match_corrected corrected_query = Some (target rule))
     ∨ (Forall (λ rule, fires rule corrected_query = false) matcher_rules
        ∧ match_corrected corrected_query = None)).
Proof.
  split; [apply match_corrected_rules |].
  rewrite match_corrected_rules. apply first_firing_split.
Qed.

(** ** The general citizenship topic *)

Lemma prefix_empty (s : string) : String.prefix "" s = true.
Proof. destruct s; reflexivity. Qed.

Lemma prefix_cons (c d : ascii) (x s : string) :
  String.prefix (String c x) (String d s)
  = if ascii_dec c d then String.prefix x s else false.
Proof. reflexivity. Qed.

Lemma prefix_app_l (x s rest : string) :
  String.prefix x s = true -> String.prefix x (s ++ rest) = true.
Proof.
  revert s. induction x as [| c x IH]; intros s; [intros _; apply prefix_empty |].
  destruct s as [| d s]; [discriminate |].
  rewrite append_cons, !prefix_cons.
  destruct (ascii_dec c d); [apply IH | discriminate].
Qed.

Lemma prefix_whole (x : string) : String.prefix x x = true.
Proof.
  induction x as [| c x IH]; [reflexivity |].
  rewrite prefix_cons. destruct (ascii_dec c c); [exact IH | contradiction].
Qed.

Lemma contains_cons (x : string) (c : ascii) (s : string) :
  contains x (String c s) = String.prefix x (String c s) || contains x s.
Proof. reflexivity. Qed.

Lemma contains_prefix (x s : string) :
  String.prefix x s = true -> contains x s = true.
Proof.
  intros Hprefix. destruct s; [unfold contains | rewrite contains_cons];
    rewrite Hprefix; reflexivity.
Qed.

Lemma contains_app_r (x before s : string) :
  contains x s = true -> contains x (before ++ s) = true.
Proof.
  intros Hs. induction before as [| c before IH]; [exact Hs |].
  rewrite append_cons, contains_cons, IH. apply orb_true_r.
Qed.

Lemma contains_app_l (x s rest : string) :
  contains x s = true -> contains x (s ++ rest) = true.
Proof.
  induction s as [| c s IH].
  - unfold contains at 1. rewrite orb_false_r. intros Hprefix.
    apply contains_prefix, (prefix_app_l x "" rest). exact Hprefix.
  - rewrite append_cons, !contains_cons. intros Hs.
    apply orb_prop in Hs as [Hprefix | Hrest].
    + rewrite <- append_cons, (prefix_app_l _ _ _ Hprefix). reflexivity.
    + rewrite (IH Hrest). apply orb_true_r.
Qed.

(** Every part occurs in the joined string. *)
Lemma contains_join (sep : string) (parts : list string) :
  Forall (λ part, contains part (join sep parts) = true) parts.
Proof.
  induction parts as [| part [| next rest] IH].
  - constructor.
  - constructor; [apply contains_prefix, prefix_whole | constructor].
  - rewrite join_cons. constructor.
    + apply contains_app_l, contains_prefix, prefix_whole.
    + eapply Forall_impl; [exact IH |]. intros other Hother.
      apply contains_app_r, contains_app_r. exact Hother.
Qed.

Section Citizenship.
Context {rt : Runtime} {ks : KnowledgeStore}.

Lemma match_citizenship_none items text :
  Forall (λ item, contains (str_lower (fst item)) text = false) items ->
  match_citizenship items text = None.
Proof.
  induction 1 as [| [subtopic section_key] items Hitem _ IH]; [reflexivity |].
  cbn in *. rewrite Hitem. exact IH.
Qed.

Lemma citizenship_message_lists_labels :
  Forall (λ item, contains (str_repr (fst item)) citizenship_message = true)
         citizenship_mapping.
Proof.
  assert (Hlabels :
    Forall (λ shown, contains shown citizenship_message = true)
           (map str_repr (map fst citizenship_mapping))).
  { eapply Forall_impl; [apply (contains_join ", ") |].
    intros shown Hshown. unfold citizenship_message, repr_list.
    do 2 apply contains_app_r. apply contains_app_l.
    apply contains_app_r, contains_app_l. exact Hshown. }
  rewrite !Forall_fmap in Hlabels. exact Hlabels.
Qed.

End Citizenship.

(** C3, as stated, fails: when the table has a section under the key
    "citizenship", that section is the answer. *)
Lemma citizenship_listing_stated_fails :
  ¬ @citizenship_listing_stated Reference.runtime Reference.chapter_store
      "citizenship".
Proof.
  intros Hclaim.
  assert (Hanswer :
    @answer_question_nlp Reference.runtime Reference.chapter_store "citizenship"
    = Ok (@citizenship_message Reference.runtime Reference.chapter_store)).
  { apply (Hclaim "citizenship" "citizenship").
    - reflexivity.
    - vm_compute. reflexivity.
    - reflexivity.
    - repeat constructor.
    - repeat constructor. }
  vm_compute in Hanswer. discriminate Hanswer.
Qed.

(** C3, amended: when the corrected text contains "citizenship" and the
    lowercased form of no subtopic, no phrase rule is satisfied, and the
    table has no section under the key "citizenship", the answer is the
    generated message, in which every subtopic label is shown. *)
Theorem citizenship_topic_lists_subtopics
    (rt : Runtime) (ks : KnowledgeStore) (query processed corrected : string) :
  preprocess_query query = Ok processed ->
  correct_spelling processed = Ok corrected ->
  contains "citizenship" corrected = true ->
  Forall (λ item, contains (str_lower (fst item)) corrected = false)
         citizenship_mapping ->
  Forall (λ rule, satisfied (fst rule) (str_lower query) = false)
         prioritized_phrases ->
  sections !! "citizenship" = None ->
  answer_question_nlp query = Ok citizenship_message
  ∧ Forall (λ item, contains (str_repr (fst item)) citizenship_message = true)
           citizenship_mapping.
Proof.
  intros Hprocessed Hcorrected Hgeneral Hsubtopics Hphrases Hsection.
  split; [| apply citizenship_message_lists_labels].
  unfold answer_question_nlp, answer_body.
  rewrite check_prioritized_none.
  - unfold match_with_synonyms. rewrite Hprocessed. cbn.
    rewrite Hcorrected. cbn. unfold match_corrected.
    rewrite match_citizenship_none by exact Hsubtopics.
    rewrite Hgeneral. unfold resolve. rewrite Hsection. reflexivity.
  - eapply Forall_impl; [exact Hphrases |]. intros rule Hrule. left. exact Hrule.
Qed.

Lemma citizenship_topic_lists_subtopics_witness :
  @answer_question_nlp Reference.runtime Reference.full_store
    "What is citizenshp"
  = Ok (@citizenship_message Reference.runtime Reference.full_store)
  ∧ Forall (λ item, contains (Reference.repr (fst item))
                      (@citizenship_message Reference.runtime
                         Reference.full_store) = true)
           Reference.citizenship_items.
Proof.
  apply (citizenship_topic_lists_subtopics
           Reference.runtime Reference.full_store
           "What is citizenshp" "citizenshp" "citizenship").
  - reflexivity.
  - vm_compute. reflexivity.
  - reflexivity.
  - repeat constructor.
  - repeat constructor.
  - reflexivity.
Defined.

(** ** The Spelling Corrector *)

Lemma join_items_some (sep : string) (parts : list string) :
  join_items sep (map Some parts) = Ok (join sep parts).
Proof.
  induction parts as [| part [| next rest] IH]; [reflexivity | reflexivity |].
  change (join_items sep (map Some (part :: next :: rest)))
    with (join_items sep (map Some (next :: rest))
          ≫= λ tail, Ok (part ++ sep ++ tail)).
  rewrite IH. reflexivity.
Qed.

Lemma join_items_none (sep : string) (parts : list (option string)) :
  None ∈ parts -> raises (join_items sep parts).
Proof.
  induction parts as [| [part |] rest IH]; intros Hnone.
  - inversion Hnone.
  - apply elem_of_cons in Hnone as [Hhead | Hrest]; [discriminate Hhead |].
    destruct rest as [| next rest]; [inversion Hrest |].
    change (join_items sep (Some part :: next :: rest))
      with (join_items sep (next :: rest) ≫= λ tail, Ok (part ++ sep ++ tail)).
    apply raises_bind, IH, Hrest.
  - eexists. reflexivity.
Qed.

Lemma comprehension_elem {A B : Type} (f : A -> result B) xs ys x :
  comprehension f xs = Ok ys -> x ∈ xs -> ∃ y, f x = Ok y ∧ y ∈ ys.
Proof.
  revert ys. induction xs as [| head xs IH]; intros ys Hys Hx.
  - inversion Hx.
  - cbn in Hys. destruct (f head) as [y |] eqn:Hhead; [| discriminate].
    cbn in Hys.
    destruct (comprehension f xs) as [rest |] eqn:Hrest; [| discriminate].
    injection Hys as <-.
    apply elem_of_cons in Hx as [-> | Hx].
    + exists y. split; [exact Hhead | left].
    + destruct (IH rest eq_refl Hx) as (y' & Hy' & Hin).
      exists y'. split; [exact Hy' | right; exact Hin].
Qed.

Section Corrector.
Context {rt : Runtime}.

Lemma comprehension_with_candidates misspelled words :
  Forall (λ word, word ∈ misspelled ->
                  ∃ best, spell_correction word = Ok (Some best)) words ->
  ∃ corrected,
    Forall2 (corrected_as misspelled) words corrected
    ∧ comprehension (correct_word misspelled) words = Ok (map Some corrected).
Proof.
  induction 1 as [| word words Hword _ (corrected & Hall & Hrest)].
  - exists []. split; [constructor | reflexivity].
  - assert (Hout : ∃ out, correct_word misspelled word = Ok (Some out)
                          ∧ corrected_as misspelled word out).
    { unfold correct_word, corrected_as. case_bool_decide as Hin.
      - destruct (Hword Hin) as [best Hbest]. exists best. auto.
      - exists word. auto. }
    destruct Hout as (out & Hcorrect & Hspec).
    exists (out :: corrected). split; [constructor; assumption |].
    cbn. rewrite Hcorrect. cbn. rewrite Hrest. reflexivity.
Qed.

(** When every word the dictionary does not know has a candidate, the
    output is the single-space join of the words, unknown ones replaced by
    their candidate and known ones kept. *)
Lemma correct_spelling_with_candidates text misspelled :
  spell_unknown (str_split text) = Ok misspelled ->
  Forall (λ word, word ∈ misspelled ->
                  ∃ best, spell_correction word = Ok (Some best))
         (str_split text) ->
  ∃ corrected,
    Forall2 (corrected_as misspelled) (str_split text) corrected
    ∧ correct_spelling text = Ok (join " " corrected).
Proof.
  intros Hunknown Hcandidates.
  destruct (comprehension_with_candidates _ _ Hcandidates)
    as (corrected & Hall & Hcomp).
  exists corrected. split; [exact Hall |].
  unfold correct_spelling, correct_spelling_body.
  rewrite Hunknown. cbn. rewrite Hcomp. cbn.
  rewrite join_items_some. reflexivity.
Qed.

(** When one unknown word has no candidate, [join] raises on the [None]
    that stands for it and the handler returns the input: no word of the
    input is corrected. *)
Lemma correct_spelling_without_candidate text misspelled word :
  spell_unknown (str_split text) = Ok misspelled ->
  word ∈ str_split text ->
  word ∈ misspelled ->
  spell_correction word = Ok None ->
  correct_spelling text = Ok text.
Proof.
  intros Hunknown Hword Hmiss Hnone.
  unfold correct_spelling. apply try_except_raise_any.
  unfold correct_spelling_body. rewrite Hunknown. cbn.
  destruct (comprehension (correct_word misspelled) (str_split text))
    as [corrected | e] eqn:Hcomp; [| eexists; reflexivity].
  cbn. apply raises_bind, join_items_none.
  destruct (comprehension_elem _ _ _ _ Hcomp Hword) as (y & Hy & Hin).
  unfold correct_word in Hy. rewrite bool_decide_eq_true_2 in Hy by exact Hmiss.
  rewrite Hnone in Hy. injection Hy as <-. exact Hin.
Qed.

End Corrector.

(** C5 at a failing input: "becom" has the candidate "become", "asdkjasd"
    has none; [join] raises on the list [["become", None]] and the input
    comes back with "becom" uncorrected. *)
Theorem correction_lost_without_candidate :
  @spell_correction Reference.runtime "becom" = Ok (Some "become")
  ∧ @spell_correction Reference.runtime "asdkjasd" = Ok None
  ∧ raises (@correct_spelling_body Reference.runtime "becom asdkjasd")
  ∧ @correct_spelling Reference.runtime "becom asdkjasd" = Ok "becom asdkjasd"
  ∧ @correct_spelling Reference.runtime "becom"  = Ok "become".
Proof.
  repeat split; try reflexivity.
  eexists. vm_compute. reflexivity.
Qed.

(** ** Sample runs *)

Example contains_inside_word : contains "right" "bill of rights" = true.
Proof. reflexivity. Qed.

Example contains_empty_term : contains "" "" = true.
Proof. reflexivity. Qed.

Example contains_needs_adjacency : contains "court" "cour t" = false.
Proof. reflexivity. Qed.

Example join_three : join " " ["a"; "b"; "c"] = "a b c".
Proof. reflexivity. Qed.

Example join_items_with_none :
  raises (join_items " " [Some "become"; None]).
Proof. eexists. reflexivity. Qed.

Example split_drops_blanks :
  Reference.split "  How do I  becom a citzen "
  = ["How"; "do"; "I"; "becom"; "a"; "citzen"].
Proof. reflexivity. Qed.

Example repr_of_label :
  Reference.repr "Dual citizenship" = "'Dual citizenship'".
Proof. reflexivity. Qed.

Example answer_of_empty_query :
  @answer_question_nlp Reference.runtime Reference.full_store ""
  = Ok no_answer_message.
Proof. vm_compute. reflexivity. Qed.

Example answer_of_punctuation :
  @answer_question_nlp Reference.runtime Reference.full_store "?!"
  = Ok no_answer_message.
Proof. vm_compute. reflexivity. Qed.

Example answer_of_greek_query :
  @answer_question_nlp Reference.runtime Reference.full_store "σύνταγμα"
  = Ok no_answer_message.
Proof. vm_compute. reflexivity. Qed.

Example answer_with_failing_libraries :
  @answer_question_nlp Reference.failing_runtime Reference.full_store
    "Dual Citizenship" = Ok "Article 16.".
Proof. vm_compute. reflexivity. Qed.

Example answer_of_synonym :
  @answer_question_nlp Reference.runtime Reference.full_store
    "Who sits in the senate" = Ok "Chapter Eight.".
Proof. vm_compute. reflexivity. Qed.

Example answer_of_later_phrase_rule :
  @answer_question_nlp Reference.runtime Reference.partial_store
    "language culture implementation rights" = Ok "Article 21.".
Proof. vm_compute. reflexivity. Qed.

Example answer_of_citizenship_section :
  @answer_question_nlp Reference.runtime Reference.chapter_store "citizenship"
  = Ok "Chapter Three.".
Proof. vm_compute. reflexivity. Qed.

(** * Further properties of the pipeline *)

(** ** What the Resolver can answer *)

(** X1: the answer to a query is the text of some section, the message
    listing the citizenship subtopics, or the guidance text. *)
Theorem answer_is_section_or_fixed
    (rt : Runtime) (ks : KnowledgeStore) (query : string) :
  ∃ text,
    answer_question_nlp query = Ok text
    ∧ ((∃ key, sections !! key = Some text)
       ∨ text = citizenship_message
       ∨ text = no_answer_message).
Proof.
  destruct (check_prioritized prioritized_phrases (str_lower query))
    as [text |] eqn:Hcheck.
  - exists text. split; [apply answer_of_phrase; exact Hcheck |].
    left. exact (check_prioritized_section _ _ _ Hcheck).
  - destruct (answer_of_matcher query Hcheck) as (p & c & _ & _ & _ & Hanswer).
    eexists. split; [exact Hanswer |].
    unfold resolve. destruct (match_corrected c) as [key |]; [| auto].
    destruct (sections !! key) as [text |] eqn:Hkey; [left; eauto |].
    destruct (String.eqb key "citizenship"); auto.
Qed.

(** X2: a key the Matcher returns that has no section and is not
    "citizenship" is answered by the guidance text. *)
Theorem unknown_key_gives_guidance
    (rt : Runtime) (ks : KnowledgeStore) (query key : string) :
  Forall (passed_over (str_lower query)) prioritized_phrases ->
  match_with_synonyms query = Ok (Some key) ->
  sections !! key = None ->
  key ≠ "citizenship" ->
  answer_question_nlp query = Ok no_answer_message.
Proof.
  intros Hphrases Hmatch Hkey Hne.
  unfold answer_question_nlp, answer_body.
  rewrite check_prioritized_none, Hmatch by exact Hphrases.
  cbn. unfold resolve. rewrite Hkey.
  apply String.eqb_neq in Hne. rewrite Hne. reflexivity.
Qed.

Lemma unknown_key_gives_guidance_witness :
  @answer_question_nlp Reference.runtime Reference.partial_store
    "Which court hears appeals" = Ok no_answer_message.
Proof.
  apply (unknown_key_gives_guidance Reference.runtime Reference.partial_store
           "Which court hears appeals" "court").
  - repeat constructor; left; reflexivity.
  - vm_compute. reflexivity.
  - reflexivity.
  - discriminate.
Defined.

(** ** Priorities inside the Matcher *)

Section MatcherPriorities.
Context {rt : Runtime} {ks : KnowledgeStore}.

Lemma match_citizenship_some items text key :
  match_citizenship items text = Some key ->
  ∃ item, item ∈ items ∧ snd item = key
          ∧ contains (str_lower (fst item)) text = true.
Proof.
  induction items as [| [subtopic section_key] items IH]; [discriminate |].
  cbn. destruct (contains (str_lower subtopic) text) eqn:Hhit.
  - intros [= <-]. exists (subtopic, section_key).
    split; [left | split; [reflexivity | exact Hhit]].
  - intros Hrest. destruct (IH Hrest) as (item & Hin & Hkey & Hitem).
    exists item. split; [right; exact Hin | auto].
Qed.

Lemma match_citizenship_app before item after text :
  Forall (λ earlier, contains (str_lower (fst earlier)) text = false) before ->
  contains (str_lower (fst item)) text = true ->
  match_citizenship (before ++ item :: after) text = Some (snd item).
Proof.
  intros Hbefore Hitem.
  induction Hbefore as [| [subtopic section_key] before Hmiss _ IH].
  - destruct item as [subtopic key]. cbn in *. rewrite Hitem. reflexivity.
  - cbn in *. rewrite Hmiss. exact IH.
Qed.

Lemma match_qa_app before key after text :
  Forall (λ earlier,
            existsb (λ term, contains term text) (search_terms earlier) = false)
         before ->
  existsb (λ term, contains term text) (search_terms key) = true ->
  match_qa (before ++ key :: after) text = Some key.
Proof.
  intros Hbefore Hkey.
  induction Hbefore as [| earlier before Hmiss _ IH].
  - cbn [app match_qa]. rewrite Hkey. reflexivity.
  - cbn [app match_qa]. rewrite Hmiss. exact IH.
Qed.

End MatcherPriorities.

(** X3: a corrected text that contains "citizenship" is never given a key
    of [qa_mapping]: the Matcher returns the key of a citizenship subtopic
    or the key "citizenship". *)
Theorem citizenship_text_stays_in_citizenship
    (rt : Runtime) (ks : KnowledgeStore) (corrected_query : string) :
  contains "citizenship" corrected_query = true ->
  match_corrected corrected_query = Some "citizenship"
  ∨ ∃ item, item ∈ citizenship_mapping
            ∧ contains (str_lower (fst item)) corrected_query = true
            ∧ match_corrected corrected_query = Some (snd item).
Proof.
  intros Hgeneral. unfold match_corrected.
  destruct (match_citizenship citizenship_mapping corrected_query)
    as [key |] eqn:Hsub.
  - right. destruct (match_citizenship_some _ _ _ Hsub) as (item & Hin & <- & Hhit).
    exists item. auto.
  - left. rewrite Hgeneral. reflexivity.
Qed.

Lemma citizenship_text_stays_in_citizenship_witness :
  @match_corrected Reference.runtime Reference.full_store
    "court citizenship parliament" = Some "citizenship"
  ∨ ∃ item, item ∈ Reference.citizenship_items
            ∧ contains (Reference.lower (fst item))
                "court citizenship parliament" = true
            ∧ @match_corrected Reference.runtime Reference.full_store
                "court citizenship parliament" = Some (snd item).
Proof.
  apply (citizenship_text_stays_in_citizenship
           Reference.runtime Reference.full_store
           "court citizenship parliament").
  reflexivity.
Defined.

(** X4: when no phrase rule answers and the corrected text contains the
    lowercased form of a citizenship subtopic and of none declared before
    it, the Matcher returns the key of that subtopic, whatever else the text
    contains, and the section of that key is the answer. *)
Theorem subtopic_section_answers
    (rt : Runtime) (ks : KnowledgeStore)
    (query processed corrected : string)
    (before after : list (string * string)) (subtopic key text : string) :
  Forall (passed_over (str_lower query)) prioritized_phrases ->
  preprocess_query query = Ok processed ->
  correct_spelling processed = Ok corrected ->
  citizenship_mapping = (before ++ (subtopic, key) :: after)%list ->
  Forall (λ earlier, contains (str_lower (fst earlier)) corrected = false)
         before ->
  contains (str_lower subtopic) corrected = true ->
  sections !! key = Some text ->
  match_with_synonyms query = Ok (Some key)
  ∧ answer_question_nlp query = Ok text.
Proof.
  intros Hphrases Hprocessed Hcorrected Hitems Hbefore Hhit Hkey.
  assert (Hmatch : match_with_synonyms query = Ok (Some key)).
  { unfold match_with_synonyms. rewrite Hprocessed. cbn.
    rewrite Hcorrected. cbn. unfold match_corrected.
    rewrite Hitems.
    rewrite (match_citizenship_app before (subtopic, key) after corrected)
      by assumption.
    reflexivity. }
  split; [exact Hmatch |].
  unfold answer_question_nlp, answer_body.
  rewrite check_prioritized_none, Hmatch by exact Hphrases.
  cbn. unfold resolve. rewrite Hkey. reflexivity.
Qed.

Lemma subtopic_section_answers_witness :
  @match_with_synonyms Reference.runtime Reference.full_store
    "Is dual citizenship allowed by parliament" = Ok (Some "dual citizenship")
  ∧ @answer_question_nlp Reference.runtime Reference.full_store
      "Is dual citizenship allowed by parliament" = Ok "Article 16.".
Proof.
  apply (subtopic_section_answers Reference.runtime Reference.full_store
           "Is dual citizenship allowed by parliament"
           "dual citizenship allowed by parliament"
           "dual citizenship allowed by parliament"
           [("Citizenship by birth", "citizenship birth")] []
           "Dual citizenship" "dual citizenship" "Article 16.").
  - repeat constructor; left; reflexivity.
  - reflexivity.
  - vm_compute. reflexivity.
  - reflexivity.
  - repeat constructor.
  - reflexivity.
  - reflexivity.
Defined.

(** X5: a synonym found in the corrected text yields the key it is declared
    under, not the synonym: when no phrase rule answers, the text contains
    no citizenship subtopic and not "citizenship", and no key declared
    before it in [qa_mapping] matches, the answer is the section of that
    key. *)
Theorem synonym_answers_with_its_key
    (rt : Runtime) (ks : KnowledgeStore)
    (query processed corrected : string)
    (before after : list (string * string))
    (key value synonym text : string) (terms : list string) :
  Forall (passed_over (str_lower query)) prioritized_phrases ->
  preprocess_query query = Ok processed ->
  correct_spelling processed = Ok corrected ->
  Forall (λ item, contains (str_lower (fst item)) corrected = false)
         citizenship_mapping ->
  contains "citizenship" corrected = false ->
  qa_mapping = (before ++ (key, value) :: after)%list ->
  Forall (λ earlier,
            existsb (λ term, contains term corrected)
                    (search_terms (fst earlier)) = false) before ->
  synonyms !! key = Some terms ->
  synonym ∈ terms ->
  contains (str_lower synonym) corrected = true ->
  sections !! key = Some text ->
  match_with_synonyms query = Ok (Some key)
  ∧ answer_question_nlp query = Ok text.
Proof.
  intros Hphrases Hprocessed Hcorrected Hsub Hgeneral Hqa Hbefore
         Hterms Hsyn Hhit Hkey.
  assert (Hfires : existsb (λ term, contains term corrected) (search_terms key)
                   = true).
  { unfold search_terms. rewrite Hterms. cbn [default existsb].
    apply orb_true_intro. right. apply existsb_exists.
    exists (str_lower synonym). split; [| exact Hhit].
    apply in_map, list_elem_of_In, Hsyn. }
  assert (Hmatch : match_with_synonyms query = Ok (Some key)).
  { unfold match_with_synonyms. rewrite Hprocessed. cbn.
    rewrite Hcorrected. cbn. unfold match_corrected.
    rewrite match_citizenship_none by exact Hsub.
    rewrite Hgeneral, Hqa, map_app. cbn [map fst].
    rewrite (match_qa_app (map fst before) key); [reflexivity | | exact Hfires].
    apply Forall_fmap. exact Hbefore. }
  split; [exact Hmatch |].
  unfold answer_question_nlp, answer_body.
  rewrite check_prioritized_none, Hmatch by exact Hphrases.
  cbn. unfold resolve. rewrite Hkey. reflexivity.
Qed.

Lemma synonym_answers_with_its_key_witness :
  @match_with_synonyms Reference.runtime Reference.full_store
    "Who sits in the Senate" = Ok (Some "parliament")
  ∧ @answer_question_nlp Reference.runtime Reference.full_store
      "Who sits in the Senate" = Ok "Chapter Eight.".
Proof.
  apply (synonym_answers_with_its_key
           Reference.runtime Reference.full_store
           "Who sits in the Senate" "who sits in senate" "who sits in senate"
           [] [("court", "")] "parliament" "" "senate" "Chapter Eight."
           ["National Assembly"; "senate"]).
  - repeat constructor; left; reflexivity.
  - reflexivity.
  - vm_compute. reflexivity.
  - repeat constructor.
  - reflexivity.
  - reflexivity.
  - constructor.
  - reflexivity.
  - right. left.
  - reflexivity.
  - reflexivity.
Defined.

(** ** Substring matching *)

Lemma contains_inside (x before s after : string) :
  contains x s = true -> contains x (before ++ s ++ after) = true.
Proof. intros Hs. apply contains_app_r, contains_app_l. exact Hs. Qed.

Lemma existsb_contains_inside (terms : list string) (before s after : string) :
  existsb (λ term, contains term s) terms = true ->
  existsb (λ term, contains term (before ++ s ++ after)) terms = true.
Proof.
  intros Hany. apply existsb_exists in Hany as (term & Hin & Hterm).
  apply existsb_exists. exists term. split; [exact Hin |].
  apply contains_inside. exact Hterm.
Qed.

Lemma first_firing_some (rules : list MatchRule) (text : string) :
  Exists (λ rule, fires rule text = true) rules ->
  is_Some (first_firing rules text).
Proof.
  induction 1 as [rule rules Hrule | rule rules _ IH]; cbn.
  - rewrite Hrule. eexists. reflexivity.
  - destruct (fires rule text); [eexists; reflexivity | exact IH].
Qed.

Lemma first_firing_fired (rules : list MatchRule) (text : string) :
  is_Some (first_firing rules text) ->
  Exists (λ rule, fires rule text = true) rules.
Proof.
  induction rules as [| rule rules IH]; cbn.
  - intros [key Hkey]. discriminate Hkey.
  - destruct (fires rule text) eqn:Hrule.
    + intros _. left. exact Hrule.
    + intros Hrest. right. apply IH, Hrest.
Qed.

Lemma matcher_rule_fires_inside (rt : Runtime) (ks : KnowledgeStore)
    (rule : MatchRule) (before s after : string) :
  rule ∈ matcher_rules ->
  fires rule s = true -> fires rule (before ++ s ++ after) = true.
Proof.
  unfold matcher_rules. rewrite !elem_of_app, !list_elem_of_fmap.
  intros [(item & -> & _) | [Hgeneral | (key & -> & _)]].
  - apply contains_inside.
  - apply list_elem_of_singleton in Hgeneral as ->. apply contains_inside.
  - apply existsb_contains_inside.
Qed.

(** X6: matching is by substring, so text around a corrected query does not
    unmatch it: a text the Matcher finds a key for still gets a key when it
    stands inside a longer text. *)
Theorem matched_text_matches_inside
    (rt : Runtime) (ks : KnowledgeStore) (before corrected_query after : string) :
  is_Some (match_corrected corrected_query) ->
  is_Some (match_corrected (before ++ corrected_query ++ after)).
Proof.
  rewrite !match_corrected_rules. intros Hsome.
  apply first_firing_some.
  apply first_firing_fired in Hsome.
  apply Exists_exists in Hsome as (rule & Hin & Hrule).
  apply Exists_exists. exists rule. split; [exact Hin |].
  apply (matcher_rule_fires_inside rt ks); assumption.
Qed.

Lemma matched_text_matches_inside_witness :
  is_Some (@match_corrected Reference.runtime Reference.full_store
             ("super" ++ "court" ++ "ship")).
Proof.
  apply (matched_text_matches_inside Reference.runtime Reference.full_store
           "super" "court" "ship").
  eexists. reflexivity.
Defined.

(** ** The Spelling Corrector and its library *)

Lemma comprehension_raises {A B : Type} (f : A -> result B) xs x :
  x ∈ xs -> raises (f x) -> raises (comprehension f xs).
Proof.
  intros Hx Hraise. induction xs as [| head xs IH]; [inversion Hx |].
  cbn. apply elem_of_cons in Hx as [<- | Hx].
  - apply raises_bind. exact Hraise.
  - destruct (f head) as [y | e]; [| eexists; reflexivity].
    cbn. apply raises_bind. apply IH. exact Hx.
Qed.

(** X7: when the checker has a candidate for every word it does not know,
    the corrected text is the words of the input joined by single spaces,
    each unknown word replaced by its candidate and each known word kept. *)
Theorem unknown_words_get_their_candidate
    (rt : Runtime) (text : string) (misspelled : gset string) :
  spell_unknown (str_split text) = Ok misspelled ->
  Forall (λ word, word ∈ misspelled ->
                  ∃ best, spell_correction word = Ok (Some best))
         (str_split text) ->
  ∃ corrected,
    Forall2 (corrected_as misspelled) (str_split text) corrected
    ∧ correct_spelling text = Ok (join " " corrected).
Proof.
  intros Hunknown Hcandidates.
  apply correct_spelling_with_candidates; assumption.
Qed.

Lemma unknown_words_get_their_candidate_witness :
  ∃ corrected,
    Forall2 (@corrected_as Reference.runtime (list_to_set ["becom"; "citzen"]))
            (Reference.split "becom  citizen citzen") corrected
    ∧ @correct_spelling Reference.runtime "becom  citizen citzen"
      = Ok (join " " corrected).
Proof.
  assert (Hknown : "citizen" ∉ (list_to_set ["becom"; "citzen"] : gset string)).
  { rewrite elem_of_list_to_set, !elem_of_cons, elem_of_nil.
    intros [Heq | [Heq | []]]; discriminate Heq. }
  apply (unknown_words_get_their_candidate Reference.runtime
           "becom  citizen citzen" (list_to_set ["becom"; "citzen"])).
  - reflexivity.
  - repeat constructor.
    + intros _. exists "become". reflexivity.
    + intros Hin. destruct (Hknown Hin).
    + intros _. exists "citizen". reflexivity.
Defined.

(** X8: when the checker has no candidate for one unknown word of the
    text, the corrector returns the text it was given: no word of it is
    corrected and its spacing is kept. *)
Theorem missing_candidate_returns_input
    (rt : Runtime) (text : string) (misspelled : gset string) (word : string) :
  spell_unknown (str_split text) = Ok misspelled ->
  word ∈ str_split text ->
  word ∈ misspelled ->
  spell_correction word = Ok None ->
  correct_spelling text = Ok text.
Proof.
  intros Hunknown Hword Hmiss Hnone.
  apply (correct_spelling_without_candidate text misspelled word); assumption.
Qed.

Lemma missing_candidate_returns_input_witness :
  @correct_spelling Reference.runtime "citzen  of kenya"
  = Ok "citzen  of kenya".
Proof.
  apply (missing_candidate_returns_input Reference.runtime
           "citzen  of kenya" (list_to_set ["citzen"; "of"; "kenya"]) "kenya").
  - reflexivity.
  - right. right. left.
  - rewrite elem_of_list_to_set. right. right. left.
  - reflexivity.
Defined.

(** X9: when the spell checker raises, on the list of words or on a word
    it is asked to correct, the corrector returns the text it was given. *)
Theorem spell_checker_failure_returns_input (rt : Runtime) (text : string) :
  raises (spell_unknown (str_split text))
  ∨ (∃ misspelled word,
        spell_unknown (str_split text) = Ok misspelled
        ∧ word ∈ str_split text
        ∧ word ∈ misspelled
        ∧ raises (spell_correction word)) ->
  correct_spelling text = Ok text.
Proof.
  intros Hfail. unfold correct_spelling. apply try_except_raise_any.
  unfold correct_spelling_body.
  destruct Hfail as [Hunknown | (misspelled & word & -> & Hword & Hmiss & Hraise)].
  - apply raises_bind. exact Hunknown.
  - cbn. apply raises_bind. apply (comprehension_raises _ _ word Hword).
    unfold correct_word. rewrite bool_decide_eq_true_2 by exact Hmiss.
    exact Hraise.
Qed.

Lemma spell_checker_failure_returns_input_witness :
  @correct_spelling Reference.failing_runtime "becom a  citzen"
  = Ok "becom a  citzen".
Proof.
  apply (spell_checker_failure_returns_input Reference.failing_runtime
           "becom a  citzen").
  left. eexists. reflexivity.
Defined.

(** ** Queries of which nothing is kept *)

Lemma contains_in_empty (x : string) : contains x "" = true -> x = "".
Proof. destruct x; [reflexivity | discriminate]. Qed.

Lemma filter_none {A : Type} (keep : A -> bool) (xs : list A) :
  forallb (λ x, negb (keep x)) xs = true -> List.filter keep xs = [].
Proof.
  induction xs as [| x xs IH]; [reflexivity |].
  cbn. destruct (keep x); [discriminate | exact IH].
Qed.

Section EmptyText.
Context {rt : Runtime} {ks : KnowledgeStore}.

Lemma correct_spelling_empty :
  str_split "" = [] -> correct_spelling "" = Ok "".
Proof.
  intros Hsplit. unfold correct_spelling, correct_spelling_body.
  rewrite Hsplit. destruct (spell_unknown []); reflexivity.
Qed.

Lemma match_corrected_empty :
  Forall (λ item, str_lower (fst item) ≠ "") citizenship_mapping ->
  Forall (λ item, Forall (λ term, term ≠ "") (search_terms (fst item)))
         qa_mapping ->
  match_corrected "" = None.
Proof.
  intros Hsubtopics Hterms. unfold match_corrected.
  rewrite match_citizenship_none.
  - cbn [contains String.prefix orb].
    induction Hterms as [| [key value] items Hkey _ IH]; [reflexivity |].
    cbn [map fst match_qa].
    replace (existsb (λ term, contains term "") (search_terms key)) with false;
      [exact IH |].
    symmetry. apply not_true_is_false. intros Hany.
    apply existsb_exists in Hany as (term & Hin & Hterm).
    apply contains_in_empty in Hterm.
    rewrite Forall_forall in Hkey. apply list_elem_of_In in Hin.
    exact (Hkey term Hin Hterm).
  - eapply Forall_impl; [exact Hsubtopics |]. intros item Hitem.
    apply not_true_is_false. intros Hhit. apply contains_in_empty in Hhit.
    exact (Hitem Hhit).
Qed.

End EmptyText.

(** X10: a query all of whose tokens are stopwords, punctuation or
    whitespace is normalized to the empty text; when no phrase rule answers
    it and no subtopic, key or synonym of the tables is empty once
    lowercased, its answer is the guidance text. *)
Theorem discarded_query_gives_guidance
    (rt : Runtime) (ks : KnowledgeStore) (query : string) (doc : list Token) :
  Forall (passed_over (str_lower query)) prioritized_phrases ->
  nlp query = Ok doc ->
  forallb (λ token, negb (kept token)) doc = true ->
  str_split "" = [] ->
  Forall (λ item, str_lower (fst item) ≠ "") citizenship_mapping ->
  Forall (λ item, Forall (λ term, term ≠ "") (search_terms (fst item)))
         qa_mapping ->
  preprocess_query query = Ok ""
  ∧ answer_question_nlp query = Ok no_answer_message.
Proof.
  intros Hphrases Hdoc Hnone Hsplit Hsubtopics Hterms.
  assert (Hprocessed : preprocess_query query = Ok "").
  { unfold preprocess_query, preprocess_body. rewrite Hdoc. cbn.
    rewrite filter_none by exact Hnone. reflexivity. }
  split; [exact Hprocessed |].
  unfold answer_question_nlp, answer_body.
  rewrite check_prioritized_none by exact Hphrases.
  unfold match_with_synonyms. rewrite Hprocessed. cbn.
  rewrite correct_spelling_empty by exact Hsplit. cbn.
  rewrite match_corrected_empty by assumption. reflexivity.
Qed.

Lemma discarded_query_gives_guidance_witness :
  @preprocess_query Reference.runtime "What is the ... ?" = Ok ""
  ∧ @answer_question_nlp Reference.runtime Reference.full_store
      "What is the ... ?" = Ok no_answer_message.
Proof.
  apply (discarded_query_gives_guidance Reference.runtime Reference.full_store
           "What is the ... ?"
           (map Reference.token_of ["What"; "is"; "the"; "..."; "?"])).
  - repeat constructor; left; reflexivity.
  - reflexivity.
  - reflexivity.
  - reflexivity.
  - repeat constructor; discriminate.
  - repeat constructor; discriminate.
Defined.

(** ** A knowledge base that could not be loaded *)

Lemma load_json_file_failed (fs : FileSystem) {T : Type} (empty : T)
    (json_load : string -> loaded T) (filename : string) :
  load_raises (read_json json_load filename) ->
  load_json_file empty json_load filename = empty.
Proof.
  intros [e He]. unfold load_json_file. rewrite He. destruct e; reflexivity.
Qed.

Lemma bare_store_answers (rt : Runtime) (ks : KnowledgeStore) (query : string) :
  sections = ∅ -> qa_mapping = [] -> citizenship_mapping = [] ->
  ∃ processed corrected,
    preprocess_query query = Ok processed
    ∧ correct_spelling processed = Ok corrected
    ∧ answer_question_nlp query
      = Ok (if contains "citizenship" corrected
            then "It seems you're interested in citizenship. "
                 ++ "Available subtopics include: []."
            else no_answer_message).
Proof.
  intros Hsections Hqa Hcitizenship.
  destruct (answer_of_matcher query) as (p & c & Hp & Hc & _ & Hanswer).
  - apply check_prioritized_none.
    apply Forall_forall. intros rule _. right. rewrite Hsections.
    apply lookup_empty.
  - exists p, c. repeat split; try assumption.
    rewrite Hanswer. f_equal.
    unfold match_corrected, resolve, citizenship_message.
    rewrite Hcitizenship, Hqa. cbn [match_citizenship map match_qa].
    destruct (contains "citizenship" c); [| reflexivity].
    rewrite Hsections, lookup_empty. reflexivity.
Qed.

(** X11: when the files of the sections and of the two mappings cannot be
    opened or decoded, they load as empty tables and the program still
    answers every query: by the subtopic message with an empty list when
    the corrected text contains "citizenship", by the guidance text
    otherwise. *)
Theorem unreadable_knowledge_base_answers
    (fs : FileSystem) (json : JsonDecoder) (rt : Runtime) (query : string) :
  load_raises (read_json decode_sections "combined_sections.json") ->
  load_raises (read_json decode_mapping "qa_mapping.json") ->
  load_raises (read_json decode_mapping "citizenship_mapping.json") ->
  ∃ processed corrected,
    preprocess_query query = Ok processed
    ∧ correct_spelling processed = Ok corrected
    ∧ @answer_question_nlp rt load_knowledge_base query
      = Ok (if contains "citizenship" corrected
            then "It seems you're interested in citizenship. "
                 ++ "Available subtopics include: []."
            else no_answer_message).
Proof.
  intros Hsections Hqa Hcitizenship.
  apply bare_store_answers; cbn; apply load_json_file_failed; assumption.
Qed.

Lemma unreadable_knowledge_base_answers_witness :
  ∃ processed corrected,
    @preprocess_query Reference.runtime "Dual citizenship" = Ok processed
    ∧ @correct_spelling Reference.runtime processed = Ok corrected
    ∧ @answer_question_nlp Reference.runtime
        (@load_knowledge_base Samples.garbled_files Samples.strict_decoder)
        "Dual citizenship"
      = Ok (if contains "citizenship" corrected
            then "It seems you're interested in citizenship. "
                 ++ "Available subtopics include: []."
            else no_answer_message).
Proof.
  apply (unreadable_knowledge_base_answers
           Samples.garbled_files Samples.strict_decoder Reference.runtime
           "Dual citizenship");
    eexists; reflexivity.
Defined.

(** * Properties of the message handler *)

Ltac run_handler :=
  unfold handle_message, handle_message_body, io_try, io_bind, attribute,
    lift, perform, io_ret, io_fail.

(** X12: an update without a message, or whose message has no text or an
    empty text, is dropped: no call is made to the bot, the pipeline is not
    run, and the handler returns. *)
Theorem textless_update_is_dropped
    (bot : Bot) (rt : Runtime) (ks : KnowledgeStore)
    (update : Telegram.Update) (log : list Telegram.call) :
  Telegram.message update = None
  ∨ (∃ message, Telegram.message update = Some message
                ∧ (Telegram.text message = None
                   ∨ Telegram.text message = Some "")) ->
  handle_message update log = (log, Done tt).
Proof.
  intros [Hnone | (message & Hsome & [Htext | Htext])]; run_handler.
  - rewrite Hnone. reflexivity.
  - rewrite Hsome, Htext. reflexivity.
  - rewrite Hsome, Htext. reflexivity.
Qed.

Lemma textless_update_is_dropped_witness :
  @handle_message Samples.offline_bot Reference.runtime Reference.full_store
    Samples.photo_update [] = ([], Done tt).
Proof.
  apply (textless_update_is_dropped Samples.offline_bot Reference.runtime
           Reference.full_store Samples.photo_update []).
  right. eexists. split; [reflexivity | left; reflexivity].
Defined.

(** X13: for a text message with a sender and a chat, when the bot accepts
    both calls, the handler shows the typing indicator in the chat of the
    update, then replies with the answer of [answer_question_nlp] to the
    text, and makes no other call. *)
Theorem answer_is_delivered
    (bot : Bot) (rt : Runtime) (ks : KnowledgeStore)
    (update : Telegram.Update) (message : Telegram.Message)
    (user_query answer : string) (user_id chat_id : Z)
    (log : list Telegram.call) :
  Telegram.message update = Some message ->
  Telegram.text message = Some user_query ->
  user_query ≠ "" ->
  Telegram.effective_user update = Some user_id ->
  Telegram.effective_chat update = Some chat_id ->
  answer_question_nlp user_query = Ok answer ->
  refuses log (Telegram.SendChatAction chat_id "typing") = None ->
  refuses (log ++ [Telegram.SendChatAction chat_id "typing"])
          (Telegram.ReplyText answer) = None ->
  handle_message update log
  = ((log ++ [Telegram.SendChatAction chat_id "typing";
              Telegram.ReplyText answer])%list, Done tt).
Proof.
  intros Hmessage Htext Hquery Huser Hchat Hanswer Htyping Hreply.
  run_handler. apply String.eqb_neq in Hquery.
  rewrite Hmessage, Htext, Hquery, Huser, Hchat, Htyping, Hanswer, Hreply.
  rewrite <- app_assoc. reflexivity.
Qed.

Lemma answer_is_delivered_witness :
  @handle_message Samples.reliable_bot Reference.runtime Reference.full_store
    (Samples.text_update "Who sits in the Senate") []
  = ([Telegram.SendChatAction (-100) "typing";
      Telegram.ReplyText "Chapter Eight."], Done tt).
Proof.
  apply (answer_is_delivered Samples.reliable_bot Reference.runtime
           Reference.full_store (Samples.text_update "Who sits in the Senate")
           {| Telegram.text := Some "Who sits in the Senate" |}
           "Who sits in the Senate" "Chapter Eight." 7 (-100) []).
  - reflexivity.
  - reflexivity.
  - discriminate.
  - reflexivity.
  - reflexivity.
  - vm_compute. reflexivity.
  - reflexivity.
  - reflexivity.
Defined.

(** X14: when the bot refuses the reply that carries the answer and
    accepts the next one, the user is sent the handler's apology after the
    typing indicator, and the handler returns. *)
Theorem refused_answer_gets_apology
    (bot : Bot) (rt : Runtime) (ks : KnowledgeStore)
    (update : Telegram.Update) (message : Telegram.Message)
    (user_query answer : string) (user_id chat_id : Z) (f : failure)
    (log : list Telegram.call) :
  Telegram.message update = Some message ->
  Telegram.text message = Some user_query ->
  user_query ≠ "" ->
  Telegram.effective_user update = Some user_id ->
  Telegram.effective_chat update = Some chat_id ->
  answer_question_nlp user_query = Ok answer ->
  refuses log (Telegram.SendChatAction chat_id "typing") = None ->
  refuses (log ++ [Telegram.SendChatAction chat_id "typing"])
          (Telegram.ReplyText answer) = Some f ->
  refuses (log ++ [Telegram.SendChatAction chat_id "typing"])
          (Telegram.ReplyText handler_error_message) = None ->
  handle_message update log
  = ((log ++ [Telegram.SendChatAction chat_id "typing";
              Telegram.ReplyText handler_error_message])%list, Done tt).
Proof.
  intros Hmessage Htext Hquery Huser Hchat Hanswer Htyping Hreply Hapology.
  run_handler. apply String.eqb_neq in Hquery.
  rewrite Hmessage, Htext, Hquery, Huser, Hchat, Htyping, Hanswer, Hreply.
  rewrite Hapology, <- app_assoc. reflexivity.
Qed.

Lemma refused_answer_gets_apology_witness :
  @handle_message Samples.api_bot Reference.runtime Reference.blank_store
    (Samples.text_update "Language and culture") []
  = ([Telegram.SendChatAction (-100) "typing";
      Telegram.ReplyText handler_error_message], Done tt).
Proof.
  apply (refused_answer_gets_apology Samples.api_bot Reference.runtime
           Reference.blank_store (Samples.text_update "Language and culture")
           {| Telegram.text := Some "Language and culture" |}
           "Language and culture" "" 7 (-100)
           (TelegramError "Message text is empty") []).
  - reflexivity.
  - reflexivity.
  - discriminate.
  - reflexivity.
  - reflexivity.
  - vm_compute. reflexivity.
  - reflexivity.
  - reflexivity.
  - reflexivity.
Defined.

(** X15: whatever the update and whatever the bot does, the calls of the
    handler that return are, in this order, at most one typing indicator and
    at most one reply, and the reply carries the answer of the pipeline to
    the text of the update or the handler's apology. *)
Theorem handler_sends_at_most_one_reply
    (bot : Bot) (rt : Runtime) (ks : KnowledgeStore)
    (update : Telegram.Update) (log : list Telegram.call) :
  ∃ added,
    fst (handle_message update log) = (log ++ added)%list
    ∧ handler_calls (answer_for update) added.
Proof.
  run_handler. unfold answer_for.
  destruct (Telegram.message update) as [message |];
    [| exists []; rewrite app_nil_r; split; [reflexivity | constructor]].
  destruct (Telegram.text message) as [user_query |];
    [| exists []; rewrite app_nil_r; split; [reflexivity | constructor]].
  destruct (String.eqb user_query "");
    [exists []; rewrite app_nil_r; split; [reflexivity | constructor] |].
  destruct (Telegram.effective_user update) as [user_id |];
    [destruct (Telegram.effective_chat update) as [chat_id |] |].
  - destruct (refuses log (Telegram.SendChatAction chat_id "typing")).
    + destruct (refuses log (Telegram.ReplyText handler_error_message)).
      * exists []. rewrite app_nil_r. split; [reflexivity | constructor].
      * eexists. split; [reflexivity | constructor].
    + destruct (answer_question_nlp user_query) as [answer | e]; cbn.
      * destruct (refuses _ (Telegram.ReplyText answer)).
        -- destruct (refuses _ (Telegram.ReplyText handler_error_message)).
           ++ eexists. split; [reflexivity | constructor].
           ++ eexists. split; [cbn; rewrite <- app_assoc; reflexivity |].
              constructor.
        -- eexists. split; [cbn; rewrite <- app_assoc; reflexivity |].
           constructor. reflexivity.
      * destruct (refuses _ (Telegram.ReplyText handler_error_message)).
        -- eexists. split; [reflexivity | constructor].
        -- eexists. split; [cbn; rewrite <- app_assoc; reflexivity |].
           constructor.
  - destruct (refuses log (Telegram.ReplyText handler_error_message)).
    + exists []. rewrite app_nil_r. split; [reflexivity | constructor].
    + eexists. split; [reflexivity | constructor].
  - destruct (refuses log (Telegram.ReplyText handler_error_message)).
    + exists []. rewrite app_nil_r. split; [reflexivity | constructor].
    + eexists. split; [reflexivity | constructor].
Qed.

(** X16: an exception leaves the handler only when the bot refuses the
    reply that carries the apology; it is the exception of that call. *)
Theorem handler_raises_only_from_apology
    (bot : Bot) (rt : Runtime) (ks : KnowledgeStore)
    (update : Telegram.Update) (log : list Telegram.call) (f : failure) :
  snd (handle_message update log) = Failed f ->
  refuses (fst (handle_message update log))
          (Telegram.ReplyText handler_error_message) = Some f.
Proof.
  run_handler.
  destruct (Telegram.message update) as [message |]; [| discriminate].
  destruct (Telegram.text message) as [user_query |]; [| discriminate].
  destruct (String.eqb user_query ""); [discriminate |].
  destruct (Telegram.effective_user update) as [user_id |];
    [destruct (Telegram.effective_chat update) as [chat_id |] |].
  - destruct (refuses log (Telegram.SendChatAction chat_id "typing")).
    + destruct (refuses log (Telegram.ReplyText handler_error_message)) eqn:Hr;
        cbn; [intros [= <-]; exact Hr | discriminate].
    + destruct (answer_question_nlp user_query) as [answer | e]; cbn.
      * destruct (refuses _ (Telegram.ReplyText answer)); [| discriminate].
        destruct (refuses _ (Telegram.ReplyText handler_error_message)) eqn:Hr;
          cbn; [intros [= <-]; exact Hr | discriminate].
      * destruct (refuses _ (Telegram.ReplyText handler_error_message)) eqn:Hr;
          cbn; [intros [= <-]; exact Hr | discriminate].
  - destruct (refuses log (Telegram.ReplyText handler_error_message)) eqn:Hr;
      cbn; [intros [= <-]; exact Hr | discriminate].
  - destruct (refuses log (Telegram.ReplyText handler_error_message)) eqn:Hr;
      cbn; [intros [= <-]; exact Hr | discriminate].
Qed.

Lemma handler_raises_only_from_apology_witness :
  @refuses Samples.offline_bot
    (fst (@handle_message Samples.offline_bot Reference.runtime
            Reference.full_store (Samples.text_update "Dual citizenship") []))
    (Telegram.ReplyText handler_error_message)
  = Some (TelegramError "Timed out").
Proof.
  apply (handler_raises_only_from_apology Samples.offline_bot
           Reference.runtime Reference.full_store
           (Samples.text_update "Dual citizenship") []).
  reflexivity.
Defined.
